(** * caligo: command context and response delivery

    A shallow embedding of [caligo/command.py] (class [Context]: the
    constructor, the lazily computed [args] attribute, [respond],
    [respond_multi] and [respond_split]) together with the properties of
    the pagination engine and of response chaining.

    Python values that are only forwarded, compared or tested for truth
    are kept dynamically typed ([PyVal]); keyword arguments are finite maps
    from names to values, bound to parameters the way a Python call binds
    them.  The methods run in a state-and-exception monad over a [World]
    holding the context object, the calls made to the transport, the
    scheduled tasks and the deleted messages. *)

From Stdlib Require Import ZArith Lia Ascii String.
From stdpp Require Import base option list gmap strings.

Local Open Scope Z_scope.

(** ** Python values *)

(** A Python [str]: a sequence of characters; only [len], slicing,
    concatenation and truthiness are used on it. *)
Definition str := list ascii.

(** [pyrogram.types.Message], as far as [command.py] reads it:
    [msg.chat], [msg.reply_to_message], [msg.text].  The text of a message
    is [None] when the message has none (a photo, a sticker). *)
#[local] Unset Elimination Schemes.
Inductive Message : Type :=
  mkMessage (message_id : Z) (m_chat : Z)
            (m_reply_to_message : option Message) (m_text : option str).
#[local] Set Elimination Schemes.

Definition message_id (m : Message) : Z :=
  match m with mkMessage i _ _ _ => i end.
Definition m_chat (m : Message) : Z :=
  match m with mkMessage _ c _ _ => c end.
Definition m_reply_to_message (m : Message) : option Message :=
  match m with mkMessage _ _ r _ => r end.
Definition m_text (m : Message) : option str :=
  match m with mkMessage _ _ _ t => t end.

Fixpoint Message_eq_dec (a b : Message) : {a = b} + {a <> b}.
Proof.
  destruct a as [i c r t], b as [i' c' r' t'].
  destruct (Z.eq_dec i i') as [->|]; [|right; congruence].
  destruct (Z.eq_dec c c') as [->|]; [|right; congruence].
  destruct (decide (t = t')) as [->|]; [|right; congruence].
  destruct r as [x|], r' as [y|]; try (right; congruence).
  - destruct (Message_eq_dec x y) as [->|]; [left; reflexivity|right; congruence].
  - left; reflexivity.
Defined.

#[global] Instance Message_eq_decision : EqDecision Message := Message_eq_dec.

Inductive PyVal : Type :=
  | PNone
  | PBool (b : bool)
  | PInt (z : Z)
  | PStr (s : str)
  | PMsg (m : Message).

#[global] Instance PyVal_eq_decision : EqDecision PyVal.
Proof. solve_decision. Defined.

(** Truth value testing ([if x], [x or y], [x and y]).  A [Message] defines
    neither [__bool__] nor [__len__], so it is always true. *)
Definition truthy (v : PyVal) : bool :=
  match v with
  | PNone => false
  | PBool b => b
  | PInt z => negb (z =? 0)
  | PStr s => negb (bool_decide (s = []))
  | PMsg _ => true
  end.

(** [a == b]; [bool] is a subclass of [int], so [True == 1]. *)
Definition py_eq (a b : PyVal) : bool :=
  match a, b with
  | PBool x, PInt z | PInt z, PBool x => z =? Z.b2z x
  | _, _ => bool_decide (a = b)
  end.

Definition is_none (v : PyVal) : bool :=
  match v with PNone => true | _ => false end.

(** [a or b] *)
Definition py_or (a b : PyVal) : PyVal := if truthy a then a else b.

(** ** Slicing *)

(** The position a slice bound [k] denotes in a sequence of length [n]:
    negative bounds count from the end, and nothing goes below 0 ([take]
    and [drop] stop at the end by themselves). *)
Definition slice_bound (n : nat) (k : Z) : nat :=
  if k <? 0 then Z.to_nat (Z.max 0 (Z.of_nat n + k)) else Z.to_nat k.

(** [s[:k]] *)
Definition slice_to {A} (k : Z) (s : list A) : list A :=
  take (slice_bound (length s) k) s.

(** [s[k:]] *)
Definition slice_from {A} (k : Z) (s : list A) : list A :=
  drop (slice_bound (length s) k) s.

(** [len(s)] *)
Definition len {A} (s : list A) : Z := Z.of_nat (length s).

(** ** Objects, the bot and the context *)

(** A sequence object: its identity ([id(x)]) and its items.  Slicing a
    list builds a new object. *)
Record Seq := mkSeq { oid : nat; items : list string }.

(** [bot.config["bot"]], the two entries [respond_split] reads. *)
Record Config := mkConfig {
  redact_responses : bool;
  overflow_page_limit : Z
}.

Record Bot := mkBot { config : Config }.

(** The instance attributes of a [Context].  [ctx_args] is [None] while the
    instance has no attribute [args] (the class only annotates it). *)
Record Context := mkContext {
  ctx_bot : Bot;
  ctx_chat : Z;
  ctx_msg : Message;
  ctx_reply_msg : option Message;
  ctx_segments : Seq;
  ctx_cmd_len : Z;
  ctx_invoker : string;
  ctx_last_update_time : option Z;
  ctx_response : PyVal;
  ctx_response_mode : PyVal;
  ctx_input : str;
  ctx_matches : list string;
  ctx_args : option Seq
}.

Definition set_response (v : PyVal) (c : Context) : Context :=
  mkContext (ctx_bot c) (ctx_chat c) (ctx_msg c) (ctx_reply_msg c)
    (ctx_segments c) (ctx_cmd_len c) (ctx_invoker c) (ctx_last_update_time c)
    v (ctx_response_mode c) (ctx_input c) (ctx_matches c) (ctx_args c).

Definition set_response_mode (v : PyVal) (c : Context) : Context :=
  mkContext (ctx_bot c) (ctx_chat c) (ctx_msg c) (ctx_reply_msg c)
    (ctx_segments c) (ctx_cmd_len c) (ctx_invoker c) (ctx_last_update_time c)
    (ctx_response c) v (ctx_input c) (ctx_matches c) (ctx_args c).

Definition set_args (a : Seq) (c : Context) : Context :=
  mkContext (ctx_bot c) (ctx_chat c) (ctx_msg c) (ctx_reply_msg c)
    (ctx_segments c) (ctx_cmd_len c) (ctx_invoker c) (ctx_last_update_time c)
    (ctx_response c) (ctx_response_mode c) (ctx_input c) (ctx_matches c)
    (Some a).

(** ** Exceptions and results *)

Inductive Exn : Type :=
  | IndexError
  | TypeError
  | AttributeError
  | TransportError (code : Z).

(** [NoFuel] is not a Python outcome: it marks a loop cut off by the
    iteration allowance of the model (see [respond_split_loop]). *)
Inductive Result (A : Type) : Type :=
  | Ok (a : A)
  | Raise (e : Exn)
  | NoFuel.
Arguments Ok {A} a.
Arguments Raise {A} e.
Arguments NoFuel {A}.

(** [Context.__init__] (lines 113-135).  [segments[0]] (line 127) raises
    [IndexError] on an empty sequence; [self.msg.text[self.cmd_len :]]
    (line 134) raises [TypeError] when the message has no text; a slice of
    a string never raises. *)
Definition Context_init (bot : Bot) (msg : Message) (segments : Seq)
    (cmd_len : Z) (matches : list string) : Result Context :=
  match items segments !! 0%nat with
  | None => Raise IndexError
  | Some first =>
      match m_text msg with
      | None => Raise TypeError
      | Some text =>
          Ok {| ctx_bot := bot;
                ctx_chat := m_chat msg;
                ctx_msg := msg;
                ctx_reply_msg := m_reply_to_message msg;
                ctx_segments := segments;
                ctx_cmd_len := cmd_len;
                ctx_invoker := first;
                ctx_last_update_time := None;
                ctx_response := PNone;
                ctx_response_mode := PNone;
                ctx_input := slice_from cmd_len text;
                ctx_matches := matches;
                ctx_args := None |}
      end
  end.

(** ** The world *)

(** One call of [bot.respond], as made at lines 162-172. *)
Record RespondCall := mkCall {
  rc_target : PyVal;          (* msg or self.msg *)
  rc_text : PyVal;
  rc_input_arg : str;
  rc_mode : PyVal;
  rc_redact : PyVal;
  rc_response : PyVal;        (* the message to edit, or None *)
  rc_kwargs : gmap string PyVal
}.

(** The coroutine [delete] of lines 177-179, handed to [create_task]: it
    closes over [delete_after] and over [self]. *)
Inductive Task : Type :=
  | DeleteTask (delete_after : PyVal).

Record World := mkWorld {
  self : Context;
  next_oid : nat;                (* next fresh object identity *)
  calls : list RespondCall;      (* calls of bot.respond, oldest first *)
  tasks : list Task;             (* created and not yet run *)
  deleted : list Message         (* Message.delete() calls, oldest first *)
}.

Definition with_self (f : Context -> Context) (w : World) : World :=
  mkWorld (f (self w)) (next_oid w) (calls w) (tasks w) (deleted w).

(** ** The monad of the methods *)

Definition M (A : Type) : Type := World -> Result A * World.

#[global] Instance M_ret : MRet M := fun A a w => (Ok a, w).
#[global] Instance M_bind : MBind M := fun A B f m w =>
  match m w with
  | (Ok a, w') => f a w'
  | (Raise e, w') => (Raise e, w')
  | (NoFuel, w') => (NoFuel, w')
  end.

Definition raise {A} (e : Exn) : M A := fun w => (Raise e, w).
Definition out_of_fuel {A} : M A := fun w => (NoFuel, w).
Definition get_self : M Context := fun w => (Ok (self w), w).
Definition modify_self (f : Context -> Context) : M unit :=
  fun w => (Ok tt, with_self f w).

Definition lift {A} (r : Result A) : M A := fun w => (r, w).

(** [self.bot.loop.create_task(coro)]: the coroutine is only registered;
    its body runs when the event loop gets to it. *)
Definition create_task (t : Task) : M unit :=
  fun w => (Ok tt, mkWorld (self w) (next_oid w) (calls w) (tasks w ++ [t]) (deleted w)).

(** A fresh sequence object holding [l]. *)
Definition new_seq (l : list string) : M Seq :=
  fun w => (Ok (mkSeq (next_oid w) l),
            mkWorld (self w) (S (next_oid w)) (calls w) (tasks w) (deleted w)).

(** ** Keyword arguments *)

(** [kw.get(name, default)]: the value a keyword parameter takes. *)
Definition param (kw : gmap string PyVal) (name : string) (dflt : PyVal) : PyVal :=
  default dflt (kw !! name).

(** What is left for [**kwargs] once the named parameters are bound. *)
Definition rest (kw : gmap string PyVal) (names : list string) : gmap string PyVal :=
  foldr delete kw names.

(** Modelled from the spec: [util.tg.MESSAGE_CHAR_LIMIT].  The module
    [caligo/util/tg.py] is not among the sources; the specification gives
    the constant ([messageCharLimit], 4096). *)
Definition MESSAGE_CHAR_LIMIT : Z := 4096.

(** The literal ["..."]. *)
Definition ellipsis : str := ["."; "."; "."]%char.

(** ** The methods of [Context] *)

Section Methods.

(** [bot.respond], the transport collaborator: given the calls made so
    far and the present one, it returns the sent or edited message or
    raises. *)
Variable bot_respond : list RespondCall -> RespondCall -> Exn + Message.

(** [bot.redact_message]. *)
Variable redact_message : str -> str.

Definition call_bot_respond (c : RespondCall) : M Message :=
  fun w =>
    let w' := mkWorld (self w) (next_oid w) (calls w ++ [c]) (tasks w) (deleted w) in
    match bot_respond (calls w) c with
    | inl e => (Raise e, w')
    | inr m => (Ok m, w')
    end.

(** [Context._get_args] (lines 146-148). *)
Definition _get_args : M Seq :=
  c ← get_self;
  a ← new_seq (slice_from 1 (items (ctx_segments c)));    (* self.segments[1:] *)
  modify_self (set_args a);;
  c ← get_self;
  match ctx_args c with
  | Some a => mret a
  | None => raise AttributeError
  end.

(** [Context.__getattr__] (lines 137-143), restricted to the one
    attribute it computes; every other name raises. *)
Definition __getattr__ (name : string) : M Seq :=
  if bool_decide (name = "args"%string) then _get_args
  else raise AttributeError.

(** The attribute access [ctx.args]: the instance attribute when there
    is one, [__getattr__] otherwise. *)
Definition args : M Seq :=
  c ← get_self;
  match ctx_args c with
  | Some a => mret a
  | None => __getattr__ "args"%string
  end.

(** The positional and keyword binding of [text] in [respond]. *)
Definition bind_text (pos : list PyVal) (kw : gmap string PyVal) : Result PyVal :=
  match pos, kw !! "text"%string with
  | [], None => Ok (PStr [])
  | [], Some t => Ok t
  | [t], None => Ok t
  | _, _ => Raise TypeError
  end.

(** [Context.respond] (lines 150-183). *)
Definition respond (pos : list PyVal) (kw : gmap string PyVal) : M PyVal :=
  text ← lift (bind_text pos kw);
  let mode := param kw "mode" PNone in
  let redact := param kw "redact" (PBool true) in
  let msg := param kw "msg" PNone in
  let reuse_response := param kw "reuse_response" (PBool false) in
  let delete_after := param kw "delete_after" (PInt 0) in
  let kwargs :=
    rest kw ["text"; "mode"; "redact"; "msg"; "reuse_response"; "delete_after"]%string in
  c ← get_self;
  (* a keyword given twice in a call is a TypeError *)
  if bool_decide (is_Some (kwargs !! "input_arg"%string)
                  \/ is_Some (kwargs !! "response"%string))
  then raise TypeError
  else
    r ← call_bot_respond
          {| rc_target := py_or msg (PMsg (ctx_msg c));
             rc_text := text;
             rc_input_arg := ctx_input c;
             rc_mode := mode;
             rc_redact := redact;
             rc_response :=
               if truthy reuse_response && py_eq mode (ctx_response_mode c)
               then ctx_response c else PNone;
             rc_kwargs := kwargs |};
    modify_self (set_response (PMsg r));;
    modify_self (set_response_mode mode);;
    (if negb (py_eq delete_after (PInt 0))
     then create_task (DeleteTask delete_after)
     else mret tt);;
    c ← get_self;
    mret (ctx_response c).

(** [Context.respond_multi] (lines 240-262). *)
Definition respond_multi (pos : list PyVal) (kw : gmap string PyVal) : M PyVal :=
  let mode := param kw "mode" PNone in
  let msg := param kw "msg" PNone in
  let reuse_response := param kw "reuse_response" (PBool false) in
  let kwargs := rest kw ["mode"; "msg"; "reuse_response"]%string in
  c ← get_self;
  let '(mode, msg, reuse_response) :=
    if truthy (ctx_response c) then
      (if is_none mode then PStr (list_ascii_of_string "reply") else mode,
       if is_none msg then ctx_response c else msg,
       if is_none reuse_response then PBool false else reuse_response)
    else (mode, msg, reuse_response) in
  respond pos
    (<["mode"%string := mode]>
       (<["msg"%string := msg]>
          (<["reuse_response"%string := reuse_response]> kwargs))).

(** The look-up table of lines 209-232: the page and [ellipsis_chars]. *)
Definition choose_page (text : str) (pages_sent max_pages : Z) : str * Z :=
  if len text <=? 4096 then
    if pages_sent =? 0 then
      (slice_to MESSAGE_CHAR_LIMIT text, 0)
    else
      (ellipsis ++ slice_to (MESSAGE_CHAR_LIMIT - 3) text, 3)
  else if pages_sent =? max_pages - 1 then
    if pages_sent =? 0 then
      (text, 0)
    else
      (ellipsis ++ text, 3)
  else
    if pages_sent =? 0 then
      (slice_to (MESSAGE_CHAR_LIMIT - 3) text ++ ellipsis, 3)
    else
      (ellipsis ++ slice_to (MESSAGE_CHAR_LIMIT - 6) text ++ ellipsis, 6).

(** The [while] loop of lines 205-236.  [fuel] bounds the number of
    iterations the model runs. *)
Fixpoint respond_split_loop (fuel : nat) (kwargs : gmap string PyVal)
    (max_pages : Z) (text : str) (pages_sent : Z) (last_msg : PyVal) : M PyVal :=
  if truthy (PStr text) && (pages_sent <? max_pages) then
    match fuel with
    | O => out_of_fuel
    | S fuel' =>
        let '(page, ellipsis_chars) := choose_page text pages_sent max_pages in
        last_msg ← respond_multi [PStr page] kwargs;
        respond_split_loop fuel' kwargs max_pages
          (slice_from (MESSAGE_CHAR_LIMIT - ellipsis_chars) text)
          (pages_sent + 1) last_msg
    end
  else mret last_msg.

(** [Context.respond_split] (lines 185-238).  [max_pages] and [redact]
    are its own keyword parameters, [kwargs] the remaining ones. *)
Definition respond_split (text : str) (max_pages : option Z)
    (redact : option bool) (kwargs : gmap string PyVal) : M PyVal :=
  c ← get_self;
  let redact :=
    match redact with
    | None => redact_responses (config (ctx_bot c))
    | Some r => r
    end in
  let max_pages :=
    match max_pages with
    | None => overflow_page_limit (config (ctx_bot c))
    | Some n => n
    end in
  let text := if redact then redact_message text else text in
  respond_split_loop (Z.to_nat max_pages) kwargs max_pages text 0 PNone.

End Methods.

(** ** The event loop *)

(** Running the body of a scheduled task once its sleep is over:
    [self.response.delete()], with [self.response] read at that moment.
    An exception in a task is reported by the loop and goes nowhere. *)
Definition run_task (t : Task) (w : World) : World :=
  match t with
  | DeleteTask _ =>
      match ctx_response (self w) with
      | PMsg m => mkWorld (self w) (next_oid w) (calls w) (tasks w) (deleted w ++ [m])
      | _ => w
      end
  end.

(** The loop runs every pending task, in the order of creation. *)
Definition run_pending (w : World) : World :=
  foldl (fun w t => run_task t w)
        (mkWorld (self w) (next_oid w) (calls w) [] (deleted w)) (tasks w).

(** ** The pages of a split, as a list *)

(** One turn of the loop of [respond_split]: the text still to send and
    [pages_sent] when it starts, the page it sends and [ellipsis_chars]. *)
Record Iteration := mkIteration {
  it_text : str;
  it_pages_sent : Z;
  it_page : str;
  it_ellipsis_chars : Z
}.

(** The turns the loop takes from [text] and [pages_sent], when no send
    raises: the recursion of [respond_split_loop] without the sends. *)
Fixpoint iterations (fuel : nat) (max_pages : Z) (text : str) (pages_sent : Z)
    : list Iteration :=
  if truthy (PStr text) && (pages_sent <? max_pages) then
    match fuel with
    | O => []
    | S fuel' =>
        let '(page, ellipsis_chars) := choose_page text pages_sent max_pages in
        mkIteration text pages_sent page ellipsis_chars
          :: iterations fuel' max_pages
               (slice_from (MESSAGE_CHAR_LIMIT - ellipsis_chars) text)
               (pages_sent + 1)
    end
  else [].

(** The text left unsent when the loop stops. *)
Fixpoint remaining (fuel : nat) (max_pages : Z) (text : str) (pages_sent : Z) : str :=
  if truthy (PStr text) && (pages_sent <? max_pages) then
    match fuel with
    | O => text
    | S fuel' =>
        remaining fuel' max_pages
          (slice_from (MESSAGE_CHAR_LIMIT - (choose_page text pages_sent max_pages).2) text)
          (pages_sent + 1)
    end
  else text.

(** The branches of lines 215, 223 and 231 put ["..."] in front of the
    page, those of lines 228 and 231 behind it. *)
Definition has_prefix (it : Iteration) : bool :=
  negb (it_pages_sent it =? 0).

Definition has_suffix (max_pages : Z) (it : Iteration) : bool :=
  negb (len (it_text it) <=? 4096) && negb (it_pages_sent it =? max_pages - 1).

(** A page without the markers that were added to it. *)
Definition strip_ellipses (pre suf : bool) (page : str) : str :=
  let p := if pre then drop 3 page else page in
  if suf then take (length p - 3)%nat p else p.

Definition real_content (max_pages : Z) (it : Iteration) : str :=
  strip_ellipses (has_prefix it) (has_suffix max_pages it) (it_page it).

(** The values [respond_split] resolves before the loop (lines 193-201). *)
Definition resolved_redact (c : Context) (redact : option bool) : bool :=
  match redact with
  | None => redact_responses (config (ctx_bot c))
  | Some r => r
  end.

Definition resolved_max_pages (c : Context) (max_pages : option Z) : Z :=
  match max_pages with
  | None => overflow_page_limit (config (ctx_bot c))
  | Some n => n
  end.

Definition resolved_text (redact_message : str -> str) (c : Context)
    (redact : option bool) (text : str) : str :=
  if resolved_redact c redact then redact_message text else text.

(** ** The decision table of the specification *)

(** Section 4.3 of the specification, step 2: the six rows, each with its
    condition, the page content and the number of ellipsis characters
    consumed.  [LIMIT] is the transport character ceiling. *)
Inductive spec_table_row (LIMIT : Z) (text : str) (pagesSent maxPages : Z)
    : str -> Z -> Prop :=
  | row_short_first :
      len text <= LIMIT -> pagesSent = 0 ->
      spec_table_row LIMIT text pagesSent maxPages
        (take (Z.to_nat LIMIT) text) 0
  | row_short_later :
      len text <= LIMIT -> pagesSent > 0 ->
      spec_table_row LIMIT text pagesSent maxPages
        (ellipsis ++ take (Z.to_nat (LIMIT - 3)) text) 3
  | row_final_first :
      len text > LIMIT -> pagesSent = maxPages - 1 -> pagesSent = 0 ->
      spec_table_row LIMIT text pagesSent maxPages text 0
  | row_final_later :
      len text > LIMIT -> pagesSent = maxPages - 1 -> pagesSent > 0 ->
      spec_table_row LIMIT text pagesSent maxPages (ellipsis ++ text) 3
  | row_more_first :
      len text > LIMIT -> pagesSent <> maxPages - 1 -> pagesSent = 0 ->
      spec_table_row LIMIT text pagesSent maxPages
        (take (Z.to_nat (LIMIT - 3)) text ++ ellipsis) 3
  | row_more_later :
      len text > LIMIT -> pagesSent <> maxPages - 1 -> pagesSent > 0 ->
      spec_table_row LIMIT text pagesSent maxPages
        (ellipsis ++ take (Z.to_nat (LIMIT - 6)) text ++ ellipsis) 6.

(** Section 4.3, steps 2 and 3: loop while the text is non-empty and
    [pagesSent < maxPages]; send the page of the table through
    [respondMulti]; drop [LIMIT - ellipsisCharsConsumed] characters from the
    front of the text; count the page; return the handle of the last page.
    A failing send ends the run with its error. *)
Inductive spec_pagination (send : str -> M PyVal) (LIMIT maxPages : Z)
    : str -> Z -> PyVal -> World -> Result PyVal * World -> Prop :=
  | spec_stop text pagesSent last w :
      ~ (text <> [] /\ pagesSent < maxPages) ->
      spec_pagination send LIMIT maxPages text pagesSent last w (Ok last, w)
  | spec_page text pagesSent last w page consumed handle w1 out :
      text <> [] -> pagesSent < maxPages ->
      spec_table_row LIMIT text pagesSent maxPages page consumed ->
      send page w = (Ok handle, w1) ->
      spec_pagination send LIMIT maxPages
        (drop (Z.to_nat (LIMIT - consumed)) text) (pagesSent + 1) handle w1 out ->
      spec_pagination send LIMIT maxPages text pagesSent last w out
  | spec_abort text pagesSent last w page consumed e w1 :
      text <> [] -> pagesSent < maxPages ->
      spec_table_row LIMIT text pagesSent maxPages page consumed ->
      send page w = (Raise e, w1) ->
      spec_pagination send LIMIT maxPages text pagesSent last w (Raise e, w1).

(** ** Sample inputs *)

(** A transport that accepts every call and numbers the messages it
    sends. *)
Definition numbering_transport (history : list RespondCall) (c : RespondCall)
    : Exn + Message :=
  inr (mkMessage (100 + len history) 7 None
         (Some (match rc_text c with PStr s => s | _ => [] end))).

Definition sample_msg : Message :=
  mkMessage 1 7 None (Some (list_ascii_of_string "/say one two")).

(** A message without text. *)
Definition sample_photo : Message := mkMessage 2 7 None None.

Definition sample_segments : Seq := mkSeq 0 ["/say"; "one"; "two"]%string.

Definition sample_context : Context :=
  {| ctx_bot := mkBot (mkConfig false 3);
     ctx_chat := 7;
     ctx_msg := sample_msg;
     ctx_reply_msg := None;
     ctx_segments := sample_segments;
     ctx_cmd_len := 4;
     ctx_invoker := "/say"%string;
     ctx_last_update_time := None;
     ctx_response := PNone;
     ctx_response_mode := PNone;
     ctx_input := list_ascii_of_string " one two";
     ctx_matches := [];
     ctx_args := None |}.

Definition sample_world : World := mkWorld sample_context 1 [] [] [].

(** A text of [n] characters. *)
Definition filler (n : Z) : str := repeat "a"%char (Z.to_nat n).

(** The names [respond] binds itself; the other keywords go on to
    [bot.respond]. *)
Definition respond_params : list string :=
  ["text"; "mode"; "redact"; "msg"; "reuse_response"; "delete_after"]%string.

(** The call [respond] makes for the context [c] (lines 162-172). *)
Definition respond_call (c : Context) (text : PyVal) (kw : gmap string PyVal)
    : RespondCall :=
  {| rc_target := py_or (param kw "msg" PNone) (PMsg (ctx_msg c));
     rc_text := text;
     rc_input_arg := ctx_input c;
     rc_mode := param kw "mode" PNone;
     rc_redact := param kw "redact" (PBool true);
     rc_response :=
       if truthy (param kw "reuse_response" (PBool false))
          && py_eq (param kw "mode" PNone) (ctx_response_mode c)
       then ctx_response c else PNone;
     rc_kwargs := rest kw respond_params |}.

(** The keywords [respond_multi] hands to [respond] (lines 249-262). *)
Definition chained_kw (c : Context) (kw : gmap string PyVal) : gmap string PyVal :=
  let mode := param kw "mode" PNone in
  let msg := param kw "msg" PNone in
  let reuse_response := param kw "reuse_response" (PBool false) in
  let chain := truthy (ctx_response c) in
  <["mode"%string := if chain && is_none mode
                     then PStr (list_ascii_of_string "reply") else mode]>
    (<["msg"%string := if chain && is_none msg then ctx_response c else msg]>
       (<["reuse_response"%string :=
            if chain && is_none reuse_response then PBool false else reuse_response]>
          (rest kw ["mode"; "msg"; "reuse_response"]%string))).

(** ** Command metadata *)

(** A compiled regular expression, as [re.compile] returns it. *)
Record Pattern := mkPattern { pattern_source : string }.

(** The values the decorators store on a function and [Command.__init__]
    reads back ([None], a string, a flag, the tuple of aliases, the empty
    list that is the default of the aliases, a compiled pattern). *)
Inductive AttrVal : Type :=
  | ANone
  | AStr (s : string)
  | ABool (b : bool)
  | ATuple (l : list string)
  | AList (l : list string)
  | APattern (p : Pattern).

(** A command function: its identity and its attribute dictionary. *)
Record Func := mkFunc { func_id : nat; func_attrs : gmap string AttrVal }.

(** [setattr(func, name, value)] *)
Definition setattr (func : Func) (name : string) (value : AttrVal) : Func :=
  mkFunc (func_id func) (<[name := value]> (func_attrs func)).

(** [getattr(func, name, default)] *)
Definition getattr (func : Func) (name : string) (dflt : AttrVal) : AttrVal :=
  default dflt (func_attrs func !! name).

(** [desc(_desc)(func)] (lines 30-37). *)
Definition desc (_desc : string) (func : Func) : Func :=
  setattr func "_cmd_description" (AStr _desc).

(** [usage(_usage, optional, reply)(func)] (lines 40-49); [optional] and
    [reply] are [False] when the caller leaves them out. *)
Definition usage (_usage : string) (optional reply : bool) (func : Func) : Func :=
  setattr
    (setattr (setattr func "_cmd_usage" (AStr _usage))
       "_cmd_usage_optional" (ABool optional))
    "_cmd_usage_reply" (ABool reply).

(** [alias(first, second, ...)(func)] (lines 52-59): the aliases are
    stored as a tuple. *)
Definition alias (aliases : list string) (func : Func) : Func :=
  setattr func "_cmd_aliases" (ATuple aliases).

(** [pattern(_pattern)(func)] (lines 62-69).  [re_compile] is
    [re.compile]: [None] when it raises [re.error], in which case nothing
    is stored and the decoration fails. *)
Definition pattern (re_compile : string -> option Pattern) (_pattern : string)
    (func : Func) : option Func :=
  match re_compile _pattern with
  | Some p => Some (setattr func "_cmd_pattern" (APattern p))
  | None => None
  end.

(** The attributes of a [Command] (lines 72-81). *)
Record Command := mkCommand {
  cmd_name : string;
  cmd_desc : AttrVal;
  cmd_usage : AttrVal;
  cmd_usage_optional : AttrVal;
  cmd_usage_reply : AttrVal;
  cmd_aliases : AttrVal;
  cmd_pattern : AttrVal;
  cmd_module : nat;
  cmd_func : Func
}.

(** [Command.__init__] (lines 83-92). *)
Definition Command_init (name : string) (mod_ : nat) (func : Func) : Command :=
  {| cmd_name := name;
     cmd_desc := getattr func "_cmd_description" ANone;
     cmd_usage := getattr func "_cmd_usage" ANone;
     cmd_usage_optional := getattr func "_cmd_usage_optional" (ABool false);
     cmd_usage_reply := getattr func "_cmd_usage_reply" (ABool false);
     cmd_aliases := getattr func "_cmd_aliases" (AList []);
     cmd_pattern := getattr func "_cmd_pattern" ANone;
     cmd_module := mod_;
     cmd_func := func |}.

(** One decorator line above a command function. *)
Inductive Decorator : Type :=
  | Desc (_desc : string)
  | Usage (_usage : string) (optional reply : bool)
  | Alias (aliases : list string)
  | Pat (_pattern : string).

Definition apply_decorator (re_compile : string -> option Pattern)
    (d : Decorator) (func : Func) : option Func :=
  match d with
  | Desc s => Some (desc s func)
  | Usage u o r => Some (usage u o r func)
  | Alias l => Some (alias l func)
  | Pat p => pattern re_compile p func
  end.

(** A stack of decorators, written top to bottom: the bottom one is
    applied first, the top one last. *)
Fixpoint decorate (re_compile : string -> option Pattern)
    (ds : list Decorator) (func : Func) : option Func :=
  match ds with
  | [] => Some func
  | d :: ds' =>
      match decorate re_compile ds' func with
      | Some f => apply_decorator re_compile d f
      | None => None
      end
  end.

(** The topmost decorator of each kind in a stack. *)
Fixpoint top_desc (ds : list Decorator) : option string :=
  match ds with
  | [] => None
  | Desc s :: _ => Some s
  | _ :: ds' => top_desc ds'
  end.

Fixpoint top_usage (ds : list Decorator) : option (string * bool * bool) :=
  match ds with
  | [] => None
  | Usage u o r :: _ => Some (u, o, r)
  | _ :: ds' => top_usage ds'
  end.

Fixpoint top_alias (ds : list Decorator) : option (list string) :=
  match ds with
  | [] => None
  | Alias l :: _ => Some l
  | _ :: ds' => top_alias ds'
  end.

Fixpoint top_pattern (ds : list Decorator) : option string :=
  match ds with
  | [] => None
  | Pat p :: _ => Some p
  | _ :: ds' => top_pattern ds'
  end.

(** The attribute names a decorator writes. *)
Definition decorator_names (d : Decorator) : list string :=
  match d with
  | Desc _ => ["_cmd_description"]
  | Usage _ _ _ => ["_cmd_usage"; "_cmd_usage_optional"; "_cmd_usage_reply"]
  | Alias _ => ["_cmd_aliases"]
  | Pat _ => ["_cmd_pattern"]
  end%string.

(** A [re.compile] for the sample runs: it rejects the empty pattern. *)
Definition sample_compile (s : string) : option Pattern :=
  if bool_decide (s = ""%string) then None else Some (mkPattern s).

Definition sample_func : Func := mkFunc 5 ∅.

(** The calls [respond] refuses with [TypeError] before it reaches the
    transport: [text] bound twice or too many positional arguments, and
    [input_arg] or [response] among the keywords, which [respond] passes to
    [bot.respond] itself. *)
Definition respond_rejects (pos : list PyVal) (kw : gmap string PyVal) : bool :=
  match bind_text pos kw with
  | Ok _ =>
      bool_decide (is_Some (kw !! "input_arg"%string)
                   \/ is_Some (kw !! "response"%string))
  | _ => true
  end.

(** A context that holds a response already. *)
Definition sample_world_replied : World :=
  (respond numbering_transport [PStr (list_ascii_of_string "ok")] ∅ sample_world).2.

(** ** Sending a list of pages *)

(** The pages of the turns of the loop, sent one after the other through
    [respond_multi] until one send raises. *)
Fixpoint send_pages (bot_respond : list RespondCall -> RespondCall -> Exn + Message)
    (kwargs : gmap string PyVal) (pages : list str) (last_msg : PyVal) : M PyVal :=
  match pages with
  | [] => mret last_msg
  | page :: pages' =>
      last_msg ← respond_multi bot_respond [PStr page] kwargs;
      send_pages bot_respond kwargs pages' last_msg
  end.

(** The keywords that make every page fail before any call: [text] is
    given twice, [input_arg] and [response] collide with the keywords
    [respond] passes itself. *)
Definition rejected (kwargs : gmap string PyVal) : bool :=
  bool_decide (is_Some (kwargs !! "text"%string)
               \/ is_Some (kwargs !! "input_arg"%string)
               \/ is_Some (kwargs !! "response"%string)).

(** The call [respond_multi] makes for a page on the context [c]. *)
Definition page_call (kwargs : gmap string PyVal) (c : Context) (page : str)
    : RespondCall :=
  respond_call c (PStr page) (chained_kw c kwargs).

(** The context after a successful send through [respond_multi]. *)
Definition after_page (kwargs : gmap string PyVal) (c : Context) (m : Message)
    : Context :=
  set_response_mode (param (chained_kw c kwargs) "mode" PNone)
    (set_response (PMsg m) c).

(** The outcome of a list of calls, each made after the ones before it:
    the message of the last call when every call returns one. *)
Fixpoint replay (bot_respond : list RespondCall -> RespondCall -> Exn + Message)
    (history : list RespondCall) (cs : list RespondCall) (last_msg : PyVal)
    : Exn + PyVal :=
  match cs with
  | [] => inr last_msg
  | c :: cs' =>
      match bot_respond history c with
      | inr m => replay bot_respond (history ++ [c]) cs' (PMsg m)
      | inl e => inl e
      end
  end.

(** Two states of a context that differ at most in [response] and
    [response_mode]. *)
Definition only_response_changed (c c' : Context) : Prop :=
  ctx_bot c' = ctx_bot c
  /\ ctx_chat c' = ctx_chat c
  /\ ctx_msg c' = ctx_msg c
  /\ ctx_reply_msg c' = ctx_reply_msg c
  /\ ctx_segments c' = ctx_segments c
  /\ ctx_cmd_len c' = ctx_cmd_len c
  /\ ctx_invoker c' = ctx_invoker c
  /\ ctx_last_update_time c' = ctx_last_update_time c
  /\ ctx_input c' = ctx_input c
  /\ ctx_matches c' = ctx_matches c
  /\ ctx_args c' = ctx_args c.

(** ** Proof automation *)

Ltac unfold_monad :=
  unfold mbind, mret, M_bind, M_ret, lift, raise, out_of_fuel, get_self,
    modify_self, with_self, create_task, new_seq, call_bot_respond in *.

Ltac not_in_names :=
  let H := fresh in
  intros H; repeat (apply elem_of_cons in H as [H|H]; [discriminate H|]);
  inversion H.

Ltac is_some_cases :=
  repeat match goal with
         | H : is_Some None |- _ => destruct H; discriminate
         | H : _ \/ _ |- _ => destruct H
         | H : ~ _ |- False => apply H; clear H
         | |- is_Some (Some _) => eexists; reflexivity
         | |- _ \/ _ => (left; solve [is_some_cases]) || right
         end.

(** * Properties *)

(** ** Slices *)

Lemma slice_to_nonneg {A} (k : Z) (s : list A) :
  0 <= k -> slice_to k s = take (Z.to_nat k) s.
Proof.
  intros Hk. unfold slice_to, slice_bound.
  destruct (Z.ltb_spec k 0); [lia | reflexivity].
Qed.

Lemma slice_from_nonneg {A} (k : Z) (s : list A) :
  0 <= k -> slice_from k s = drop (Z.to_nat k) s.
Proof.
  intros Hk. unfold slice_from, slice_bound.
  destruct (Z.ltb_spec k 0); [lia | reflexivity].
Qed.

Lemma slice_to_from {A} (k : Z) (s : list A) :
  slice_to k s ++ slice_from k s = s.
Proof. unfold slice_to, slice_from. apply take_drop. Qed.

Lemma slice_to_all {A} (k : Z) (s : list A) :
  len s <= k -> slice_to k s = s.
Proof.
  intros Hk. unfold len in Hk. rewrite slice_to_nonneg by lia.
  apply take_ge. lia.
Qed.

Lemma slice_from_all {A} (k : Z) (s : list A) :
  len s <= k -> slice_from k s = [].
Proof.
  intros Hk. unfold len in Hk. rewrite slice_from_nonneg by lia.
  apply drop_ge. lia.
Qed.

Lemma len_slice_from {A} (k : Z) (s : list A) :
  0 <= k -> len (slice_from k s) = Z.max 0 (len s - k).
Proof.
  intros Hk. rewrite slice_from_nonneg by lia. unfold len.
  rewrite length_drop. lia.
Qed.

Lemma len_slice_to {A} (k : Z) (s : list A) :
  0 <= k -> len (slice_to k s) = Z.min k (len s).
Proof.
  intros Hk. rewrite slice_to_nonneg by lia. unfold len.
  rewrite length_take. lia.
Qed.

Lemma len_app {A} (s t : list A) : len (s ++ t) = len s + len t.
Proof. unfold len. rewrite length_app. lia. Qed.

Lemma len_ellipsis : len ellipsis = 3.
Proof. reflexivity. Qed.

Lemma truthy_str (s : str) : truthy (PStr s) = true <-> s <> [].
Proof.
  simpl. destruct (bool_decide_reflect (s = [])); simpl; split; congruence.
Qed.

(** ** The constructor *)

Lemma Context_init_empty bot msg segments cmd_len matches :
  items segments = [] ->
  Context_init bot msg segments cmd_len matches = Raise IndexError.
Proof. intros H. unfold Context_init. rewrite H. reflexivity. Qed.

Lemma Context_init_no_text bot msg segments cmd_len matches :
  items segments <> [] ->
  m_text msg = None ->
  Context_init bot msg segments cmd_len matches = Raise TypeError.
Proof.
  intros Hne Ht. unfold Context_init.
  destruct (items segments) as [|first others]; [congruence|].
  simpl. rewrite Ht. reflexivity.
Qed.

(** C9, amended.  Given the caller's contract that the segment sequence
    is not empty and that the triggering message has a text, the
    constructor of the context returns a context for every bot, command
    length and list of matches; the invoker of that context is the first
    segment and its input is the slice of the text from the command
    length on. *)
Theorem Context_init_total bot msg segments cmd_len matches :
  items segments <> [] ->
  is_Some (m_text msg) ->
  exists c,
    Context_init bot msg segments cmd_len matches = Ok c
    /\ head (items segments) = Some (ctx_invoker c)
    /\ Some (ctx_input c) = slice_from cmd_len <$> m_text msg
    /\ ctx_segments c = segments
    /\ ctx_msg c = msg
    /\ ctx_cmd_len c = cmd_len
    /\ ctx_matches c = matches
    /\ ctx_response c = PNone
    /\ ctx_response_mode c = PNone
    /\ ctx_args c = None.
Proof.
  intros Hne [text Ht]. unfold Context_init.
  destruct (items segments) as [|first others] eqn:E; [congruence|].
  simpl. rewrite Ht. eexists. repeat split.
Qed.

Lemma Context_init_total_witness :
  exists c,
    Context_init (mkBot (mkConfig false 3)) sample_msg sample_segments 4 [] = Ok c
    /\ head (items sample_segments) = Some (ctx_invoker c)
    /\ Some (ctx_input c) = slice_from 4 <$> m_text sample_msg
    /\ ctx_segments c = sample_segments
    /\ ctx_msg c = sample_msg
    /\ ctx_cmd_len c = 4
    /\ ctx_matches c = []
    /\ ctx_response c = PNone
    /\ ctx_response_mode c = PNone
    /\ ctx_args c = None.
Proof.
  apply (Context_init_total (mkBot (mkConfig false 3)) sample_msg sample_segments 4 []).
  - simpl. discriminate.
  - eexists. reflexivity.
Defined.

(** A message without text and a segment sequence that is not empty: the
    constructor raises [TypeError]. *)
Lemma Context_init_without_text :
  items sample_segments <> []
  /\ Context_init (mkBot (mkConfig false 3)) sample_photo sample_segments 4 []
     = Raise TypeError.
Proof. split; [discriminate | reflexivity]. Qed.

(** ** [respond] *)

Lemma rest_lookup_ne (kw : gmap string PyVal) (names : list string) (k : string) :
  k ∉ names -> rest kw names !! k = kw !! k.
Proof.
  induction names as [|n names IH]; intros Hk; [reflexivity|].
  simpl. rewrite lookup_delete_ne by (intros ->; apply Hk; left).
  apply IH. intros Hin. apply Hk. right. exact Hin.
Qed.

Section RespondFacts.

Variable bot_respond : list RespondCall -> RespondCall -> Exn + Message.

(** What one call of [respond] does, in one equation. *)
Lemma respond_run pos kw w :
  respond bot_respond pos kw w =
  match bind_text pos kw with
  | Ok text =>
      if bool_decide (is_Some (rest kw respond_params !! "input_arg"%string)
                      \/ is_Some (rest kw respond_params !! "response"%string))
      then (Raise TypeError, w)
      else
        let call := respond_call (self w) text kw in
        match bot_respond (calls w) call with
        | inl e =>
            (Raise e,
             mkWorld (self w) (next_oid w) (calls w ++ [call]) (tasks w) (deleted w))
        | inr m =>
            (Ok (PMsg m),
             mkWorld
               (set_response_mode (param kw "mode" PNone)
                  (set_response (PMsg m) (self w)))
               (next_oid w) (calls w ++ [call])
               (if negb (py_eq (param kw "delete_after" (PInt 0)) (PInt 0))
                then tasks w ++ [DeleteTask (param kw "delete_after" (PInt 0))]
                else tasks w)
               (deleted w))
        end
  | Raise e => (Raise e, w)
  | NoFuel => (NoFuel, w)
  end.
Proof.
  unfold respond. unfold_monad.
  destruct (bind_text pos kw) as [text|e|]; try reflexivity.
  fold respond_params.
  destruct (bool_decide _); [reflexivity|].
  unfold respond_call. simpl.
  destruct (bot_respond _ _) as [e|m]; [reflexivity|]. simpl.
  destruct (negb _); reflexivity.
Qed.

Lemma bind_text_not_NoFuel pos kw : bind_text pos kw <> NoFuel.
Proof.
  unfold bind_text.
  destruct pos as [|t [|u pos]], (kw !! "text"%string); discriminate.
Qed.

Lemma bind_text_error pos kw e : bind_text pos kw = Raise e -> e = TypeError.
Proof.
  unfold bind_text.
  destruct pos as [|t [|u pos]], (kw !! "text"%string); congruence.
Qed.

(** [respond] either stops on a binding error before any call, or makes
    exactly one call. *)
Lemma respond_cases pos kw w :
  respond bot_respond pos kw w = (Raise TypeError, w)
  \/ exists text,
       bind_text pos kw = Ok text
       /\ let call := respond_call (self w) text kw in
          match bot_respond (calls w) call with
          | inl e =>
              respond bot_respond pos kw w =
              (Raise e,
               mkWorld (self w) (next_oid w) (calls w ++ [call]) (tasks w) (deleted w))
          | inr m =>
              respond bot_respond pos kw w =
              (Ok (PMsg m),
               mkWorld
                 (set_response_mode (param kw "mode" PNone)
                    (set_response (PMsg m) (self w)))
                 (next_oid w) (calls w ++ [call])
                 (if negb (py_eq (param kw "delete_after" (PInt 0)) (PInt 0))
                  then tasks w ++ [DeleteTask (param kw "delete_after" (PInt 0))]
                  else tasks w)
                 (deleted w))
          end.
Proof.
  rewrite respond_run.
  destruct (bind_text pos kw) as [text|e|] eqn:E.
  - destruct (bool_decide _); [left; reflexivity|].
    right. exists text. split; [reflexivity|]. simpl.
    destruct (bot_respond _ _); reflexivity.
  - left. apply bind_text_error in E. subst. reflexivity.
  - exfalso. exact (bind_text_not_NoFuel _ _ E).
Qed.



End RespondFacts.

Section RespondReuse.

Variable bot_respond : list RespondCall -> RespondCall -> Exn + Message.

(** C7.  A call of [respond] is refused with [TypeError] before it
    reaches the transport exactly when its arguments cannot be bound or
    [input_arg] or [response] is among the keywords.  Every other call
    makes one call to the transport, in which the message to edit is the
    previous response exactly when [reuse_response] is true and [mode]
    equals the recorded [response_mode], and is [None] otherwise; the
    target is [msg] when given and the triggering message otherwise; and
    when the transport returns a message, [response] becomes that message
    and [response_mode] becomes [mode], whatever they were (when it raises,
    the context is left as it was). *)
Theorem respond_reuse_and_update pos kw w :
  let c := self w in
  let mode := param kw "mode" PNone in
  let msg := param kw "msg" PNone in
  let reuse_response := param kw "reuse_response" (PBool false) in
  let out := respond bot_respond pos kw w in
  if respond_rejects pos kw then out = (Raise TypeError, w)
  else
    exists text,
      bind_text pos kw = Ok text
      /\ let call := respond_call c text kw in
         calls out.2 = calls w ++ [call]
         /\ rc_text call = text
         /\ rc_mode call = mode
         /\ rc_target call = (if truthy msg then msg else PMsg (ctx_msg c))
         /\ rc_response call =
            (if truthy reuse_response && py_eq mode (ctx_response_mode c)
             then ctx_response c else PNone)
         /\ (forall prev, ctx_response c = PMsg prev ->
               (rc_response call = PMsg prev
                <-> truthy reuse_response = true
                    /\ py_eq mode (ctx_response_mode c) = true))
         /\ match bot_respond (calls w) call with
            | inr m =>
                out.1 = Ok (PMsg m)
                /\ ctx_response (self out.2) = PMsg m
                /\ ctx_response_mode (self out.2) = mode
            | inl e =>
                out.1 = Raise e /\ self out.2 = self w
            end.
Proof.
  intros c mode msg reuse_response out. subst out c.
  unfold respond_rejects. rewrite respond_run.
  destruct (bind_text pos kw) as [text|e|] eqn:E.
  - rewrite !rest_lookup_ne by not_in_names.
    destruct (bool_decide _); [reflexivity|].
    exists text. split; [reflexivity|]. cbv zeta.
    assert (Hiff : forall prev, ctx_response (self w) = PMsg prev ->
              (rc_response (respond_call (self w) text kw) = PMsg prev
               <-> truthy reuse_response = true
                   /\ py_eq mode (ctx_response_mode (self w)) = true)).
    { intros prev Hprev. simpl. fold mode reuse_response.
      rewrite Hprev.
      destruct (truthy reuse_response), (py_eq mode (ctx_response_mode (self w)));
        simpl; split; intros H; try reflexivity; try discriminate;
        destruct H; try discriminate; auto. }
    split; [destruct (bot_respond _ _); reflexivity|].
    split; [reflexivity|]. split; [reflexivity|]. split; [reflexivity|].
    split; [reflexivity|]. split; [exact Hiff|].
    destruct (bot_respond (calls w) (respond_call (self w) text kw));
      simpl; repeat split.
  - apply bind_text_error in E. subst. reflexivity.
  - exfalso. exact (bind_text_not_NoFuel _ _ E).
Qed.

End RespondReuse.

(** On a context whose response was sent with mode [None], a call with
    [reuse_response=True] and no mode hands that response over to be
    edited, and the context then holds the message the transport
    returned. *)
Lemma respond_reuse_and_update_witness :
  let edit := PStr (list_ascii_of_string "edit") in
  let kw : gmap string PyVal := {[ "reuse_response"%string := PBool true ]} in
  let first := mkMessage 100 7 None (Some (list_ascii_of_string "ok")) in
  let second := mkMessage 101 7 None (Some (list_ascii_of_string "edit")) in
  let out := respond numbering_transport [edit] kw sample_world_replied in
  respond_rejects [edit] kw = false
  /\ exists call,
       calls out.2 = calls sample_world_replied ++ [call]
       /\ rc_response call = PMsg first
       /\ out.1 = Ok (PMsg second)
       /\ ctx_response (self out.2) = PMsg second.
Proof.
  intros edit kw first second out.
  assert (R : respond_rejects [edit] kw = false) by (vm_compute; reflexivity).
  split; [exact R|].
  pose proof (respond_reuse_and_update numbering_transport [edit] kw
                sample_world_replied) as H.
  cbv zeta in H. rewrite R in H.
  destruct H as (text & _ & Hcalls & _).
  exists (respond_call (self sample_world_replied) text kw).
  split; [exact Hcalls|].
  assert (Hcall : calls out.2
                  = calls sample_world_replied
                      ++ [respond_call (self sample_world_replied) edit kw])
    by (vm_compute; reflexivity).
  unfold out in Hcall. rewrite Hcalls in Hcall.
  apply app_inv_head in Hcall. injection Hcall as ->.
  repeat split; vm_compute; reflexivity.
Defined.


(** ** [respond_multi] *)



Lemma chained_mode c kw :
  param (chained_kw c kw) "mode" PNone =
  if truthy (ctx_response c) && is_none (param kw "mode" PNone)
  then PStr (list_ascii_of_string "reply") else param kw "mode" PNone.
Proof. unfold chained_kw, param at 1. rewrite lookup_insert_eq. reflexivity. Qed.

Lemma chained_msg c kw :
  param (chained_kw c kw) "msg" PNone =
  if truthy (ctx_response c) && is_none (param kw "msg" PNone)
  then ctx_response c else param kw "msg" PNone.
Proof.
  unfold chained_kw, param at 1.
  rewrite lookup_insert_ne by discriminate.
  rewrite lookup_insert_eq. reflexivity.
Qed.

Lemma chained_reuse_response c kw :
  param (chained_kw c kw) "reuse_response" (PBool false) =
  if truthy (ctx_response c) && is_none (param kw "reuse_response" (PBool false))
  then PBool false else param kw "reuse_response" (PBool false).
Proof.
  unfold chained_kw, param at 1.
  do 2 rewrite lookup_insert_ne by discriminate.
  rewrite lookup_insert_eq. reflexivity.
Qed.

Lemma chained_other c kw (k : string) :
  k ∉ ["mode"; "msg"; "reuse_response"]%string ->
  chained_kw c kw !! k = kw !! k.
Proof.
  intros Hk. unfold chained_kw.
  rewrite !lookup_insert_ne
    by (intros <-; apply Hk; repeat constructor).
  apply rest_lookup_ne. exact Hk.
Qed.

Section RespondMultiFacts.

Variable bot_respond : list RespondCall -> RespondCall -> Exn + Message.

Lemma respond_multi_run pos kw w :
  respond_multi bot_respond pos kw w =
  respond bot_respond pos (chained_kw (self w) kw) w.
Proof.
  unfold respond_multi, chained_kw. unfold_monad.
  destruct (truthy (ctx_response (self w))); reflexivity.
Qed.

Lemma respond_ok pos kw w r w' :
  respond bot_respond pos kw w = (Ok r, w') ->
  exists text m,
    bind_text pos kw = Ok text
    /\ bot_respond (calls w) (respond_call (self w) text kw) = inr m
    /\ r = PMsg m
    /\ calls w' = calls w ++ [respond_call (self w) text kw]
    /\ self w' = set_response_mode (param kw "mode" PNone)
                   (set_response (PMsg m) (self w))
    /\ next_oid w' = next_oid w
    /\ deleted w' = deleted w
    /\ tasks w' =
       (if negb (py_eq (param kw "delete_after" (PInt 0)) (PInt 0))
        then tasks w ++ [DeleteTask (param kw "delete_after" (PInt 0))]
        else tasks w).
Proof.
  destruct (respond_cases bot_respond pos kw w) as [E|(text & Hb & Hrun)].
  - rewrite E. discriminate.
  - simpl in Hrun. intros H. exists text.
    destruct (bot_respond _ _) as [e|m]; rewrite Hrun in H; [discriminate|].
    exists m. inversion H; subst. simpl. repeat split. exact Hb.
Qed.

(** What the transport sees of one call of [respond_multi]. *)
Lemma respond_multi_call pos kw w :
  let out := respond_multi bot_respond pos kw w in
  out = (Raise TypeError, w)
  \/ exists call,
       calls out.2 = calls w ++ [call]
       /\ rc_mode call = param (chained_kw (self w) kw) "mode" PNone
       /\ rc_target call =
          py_or (param (chained_kw (self w) kw) "msg" PNone)
                (PMsg (ctx_msg (self w)))
       /\ rc_redact call = param (chained_kw (self w) kw) "redact" (PBool true).
Proof.
  simpl. rewrite respond_multi_run.
  destruct (respond_cases bot_respond pos (chained_kw (self w) kw) w)
    as [E|(text & Hb & Hrun)]; [left; exact E|].
  right. simpl in Hrun. eexists.
  destruct (bot_respond _ _); rewrite Hrun; simpl; repeat split.
Qed.

(** C6.  [respond_multi] hands over to [respond].  When the context has a
    response, a call without a mode and without a message goes on with
    mode ["reply"] and with the previous response as the message, which
    is then the target the transport receives; a mode or a message given
    by the caller is kept.  When the context has no response, mode,
    message and [reuse_response] go on as given.  Every other keyword
    goes on as given in both cases.  Hence, after a first call has
    returned a message, a second call without mode and message reaches
    the transport with mode ["reply"] and that message as target. *)
Theorem respond_multi_chaining pos kw w :
  let c := self w in
  let reply := PStr (list_ascii_of_string "reply") in
  let kw' := chained_kw c kw in
  let out := respond_multi bot_respond pos kw w in
  out = respond bot_respond pos kw' w
  /\ (forall k : string, k ∉ ["mode"; "msg"; "reuse_response"]%string ->
        kw' !! k = kw !! k)
  /\ (truthy (ctx_response c) = true ->
        (param kw "mode" PNone = PNone -> param kw' "mode" PNone = reply)
        /\ (param kw "msg" PNone = PNone -> param kw' "msg" PNone = ctx_response c)
        /\ (param kw "mode" PNone <> PNone ->
              param kw' "mode" PNone = param kw "mode" PNone)
        /\ (param kw "msg" PNone <> PNone ->
              param kw' "msg" PNone = param kw "msg" PNone)
        /\ (param kw "mode" PNone = PNone -> param kw "msg" PNone = PNone ->
              out = (Raise TypeError, w)
              \/ exists call,
                   calls out.2 = calls w ++ [call]
                   /\ rc_mode call = reply
                   /\ rc_target call = ctx_response c))
  /\ (truthy (ctx_response c) = false ->
        param kw' "mode" PNone = param kw "mode" PNone
        /\ param kw' "msg" PNone = param kw "msg" PNone
        /\ param kw' "reuse_response" (PBool false)
           = param kw "reuse_response" (PBool false))
  /\ (forall pos2 kw2 first w1,
        out = (Ok first, w1) ->
        param kw2 "mode" PNone = PNone ->
        param kw2 "msg" PNone = PNone ->
        let out2 := respond_multi bot_respond pos2 kw2 w1 in
        out2 = (Raise TypeError, w1)
        \/ exists call,
             calls out2.2 = calls w1 ++ [call]
             /\ rc_mode call = reply
             /\ rc_target call = first).
Proof.
  intros c reply kw' out.
  assert (Hchain : forall (w0 : World) (pos0 : list PyVal) (kw0 : gmap string PyVal),
            truthy (ctx_response (self w0)) = true ->
            param kw0 "mode" PNone = PNone ->
            param kw0 "msg" PNone = PNone ->
            respond_multi bot_respond pos0 kw0 w0 = (Raise TypeError, w0)
            \/ exists call,
                 calls (respond_multi bot_respond pos0 kw0 w0).2 = calls w0 ++ [call]
                 /\ rc_mode call = reply
                 /\ rc_target call = ctx_response (self w0)).
  { intros w0 pos0 kw0 Ht Hm Hg.
    destruct (respond_multi_call pos0 kw0 w0) as [E|(call & Hc & Hmode & Htg & _)];
      [left; exact E|].
    right. exists call. split; [exact Hc|].
    rewrite Hmode, Htg, chained_mode, chained_msg, Ht, Hm, Hg. simpl.
    unfold py_or. rewrite Ht. split; reflexivity. }
  split; [apply respond_multi_run|].
  split; [intros k Hk; apply chained_other; exact Hk|].
  split; [|split].
  - intros Ht. subst kw'.
    rewrite chained_mode, chained_msg, Ht. simpl.
    split; [intros ->; reflexivity|].
    split; [intros ->; reflexivity|].
    split; [intros Hne; destruct (param kw "mode" PNone); simpl; congruence|].
    split; [intros Hne; destruct (param kw "msg" PNone); simpl; congruence|].
    intros Hm Hg. apply Hchain; assumption.
  - intros Hf. subst kw'.
    rewrite chained_mode, chained_msg, chained_reuse_response, Hf.
    simpl. repeat split.
  - intros pos2 kw2 first w1 Hout Hm Hg. simpl.
    subst out. rewrite respond_multi_run in Hout.
    apply respond_ok in Hout.
    destruct Hout as (text & m & _ & _ & -> & _ & Hself & _).
    assert (Hresp : ctx_response (self w1) = PMsg m)
      by (rewrite Hself; reflexivity).
    rewrite <- Hresp. apply Hchain; [rewrite Hresp; reflexivity|assumption..].
Qed.

End RespondMultiFacts.

Lemma respond_multi_chaining_witness :
  let reply := PStr (list_ascii_of_string "reply") in
  let one := PStr (list_ascii_of_string "one") in
  let two := PStr (list_ascii_of_string "two") in
  let first := mkMessage 100 7 None (Some (list_ascii_of_string "one")) in
  let w1 := (respond_multi numbering_transport [one] ∅ sample_world).2 in
  let out2 := respond_multi numbering_transport [two] ∅ w1 in
  out2 = (Raise TypeError, w1)
  \/ exists call,
       calls out2.2 = calls w1 ++ [call]
       /\ rc_mode call = reply
       /\ rc_target call = PMsg first.
Proof.
  intros reply one two first w1 out2.
  destruct (respond_multi_chaining numbering_transport [one] ∅ sample_world)
    as (_ & _ & _ & _ & H).
  apply (H [two] ∅ (PMsg first) w1); vm_compute; reflexivity.
Defined.

(** ** The [args] attribute *)

Section PreservedFacts.

Variable bot_respond : list RespondCall -> RespondCall -> Exn + Message.
Variable redact_message : str -> str.

(** No method of the response API writes [self.args] or
    [self.segments]. *)
Lemma respond_keeps_args pos kw w :
  ctx_args (self (respond bot_respond pos kw w).2) = ctx_args (self w)
  /\ ctx_segments (self (respond bot_respond pos kw w).2) = ctx_segments (self w).
Proof.
  destruct (respond_cases bot_respond pos kw w) as [E|(text & _ & Hrun)].
  - rewrite E. split; reflexivity.
  - simpl in Hrun. destruct (bot_respond _ _); rewrite Hrun; split; reflexivity.
Qed.

Lemma respond_multi_keeps_args pos kw w :
  ctx_args (self (respond_multi bot_respond pos kw w).2) = ctx_args (self w)
  /\ ctx_segments (self (respond_multi bot_respond pos kw w).2)
     = ctx_segments (self w).
Proof. rewrite respond_multi_run. apply respond_keeps_args. Qed.

Lemma respond_split_loop_keeps_args fuel kwargs max_pages :
  forall text pages_sent last_msg w,
    ctx_args (self (respond_split_loop bot_respond fuel kwargs max_pages
                      text pages_sent last_msg w).2) = ctx_args (self w)
    /\ ctx_segments (self (respond_split_loop bot_respond fuel kwargs max_pages
                             text pages_sent last_msg w).2)
       = ctx_segments (self w).
Proof.
  induction fuel as [|fuel IH]; intros text pages_sent last_msg w; simpl;
    destruct (_ && _); try (split; reflexivity).
  destruct (choose_page text pages_sent max_pages) as [page e].
  unfold mbind, M_bind.
  pose proof (respond_multi_keeps_args [PStr page] kwargs w) as [Ha Hs].
  destruct (respond_multi bot_respond [PStr page] kwargs w) as [[m|ex|] w1];
    simpl in *; try (split; assumption).
  destruct (IH (slice_from (MESSAGE_CHAR_LIMIT - e) text) (pages_sent + 1) m w1)
    as [Ha' Hs'].
  split; congruence.
Qed.

Lemma respond_split_keeps_args text max_pages redact kwargs w :
  ctx_args (self (respond_split bot_respond redact_message text max_pages
                    redact kwargs w).2) = ctx_args (self w)
  /\ ctx_segments (self (respond_split bot_respond redact_message text max_pages
                           redact kwargs w).2) = ctx_segments (self w).
Proof.
  unfold respond_split. unfold_monad. apply respond_split_loop_keeps_args.
Qed.

End PreservedFacts.

(** C8.  The first access to [args] on a context builds a new sequence
    holding [segments[1:]] and stores it on the context; every access
    after that returns this very object (same identity, same items) and
    computes nothing, also after calls of [respond], [respond_multi] and
    [respond_split], which leave the stored object in place. *)
Theorem args_computed_once w :
  ctx_args (self w) = None ->
  exists a w1,
    args w = (Ok a, w1)
    /\ items a = slice_from 1 (items (ctx_segments (self w)))
    /\ oid a = next_oid w
    /\ next_oid w1 = S (next_oid w)
    /\ ctx_args (self w1) = Some a
    /\ args w1 = (Ok a, w1)
    /\ (forall w', ctx_args (self w') = Some a -> args w' = (Ok a, w'))
    /\ (forall bot_respond pos kw,
          ctx_args (self (respond bot_respond pos kw w1).2) = Some a
          /\ ctx_args (self (respond_multi bot_respond pos kw w1).2) = Some a)
    /\ (forall bot_respond redact_message text max_pages redact kwargs,
          ctx_args (self (respond_split bot_respond redact_message text
                            max_pages redact kwargs w1).2) = Some a).
Proof.
  intros Hnone.
  assert (Hcached : forall (a : Seq) (w' : World),
            ctx_args (self w') = Some a -> args w' = (Ok a, w')).
  { intros a w' H. unfold args. unfold_monad. rewrite H. reflexivity. }
  eexists. eexists.
  split.
  { unfold args, __getattr__, _get_args. unfold_monad. rewrite Hnone.
    simpl. reflexivity. }
  split; [reflexivity|].
  split; [reflexivity|].
  split; [reflexivity|].
  split; [reflexivity|].
  split; [apply Hcached; reflexivity|].
  split; [intros w' H; apply Hcached; exact H|].
  split.
  - intros bot_respond pos kw. split.
    + destruct (respond_keeps_args bot_respond pos kw
                  (mkWorld (set_args (mkSeq (next_oid w)
                                        (slice_from 1 (items (ctx_segments (self w)))))
                              (self w))
                           (S (next_oid w)) (calls w) (tasks w) (deleted w)))
        as [H _].
      exact H.
    + destruct (respond_multi_keeps_args bot_respond pos kw
                  (mkWorld (set_args (mkSeq (next_oid w)
                                        (slice_from 1 (items (ctx_segments (self w)))))
                              (self w))
                           (S (next_oid w)) (calls w) (tasks w) (deleted w)))
        as [H _].
      exact H.
  - intros bot_respond redact_message text max_pages redact kwargs.
    destruct (respond_split_keeps_args bot_respond redact_message text
                max_pages redact kwargs
                (mkWorld (set_args (mkSeq (next_oid w)
                                      (slice_from 1 (items (ctx_segments (self w)))))
                            (self w))
                         (S (next_oid w)) (calls w) (tasks w) (deleted w)))
      as [H _].
    exact H.
Qed.

Lemma args_computed_once_witness :
  exists a w1,
    args sample_world = (Ok a, w1)
    /\ items a = ["one"; "two"]%string
    /\ args w1 = (Ok a, w1).
Proof.
  destruct (args_computed_once sample_world)
    as (a & w1 & H1 & H2 & _ & _ & _ & H3 & _); [reflexivity|].
  exists a, w1. repeat split; assumption.
Defined.

(** ** The pagination loop *)

Lemma choose_page_ellipsis_chars text pages_sent max_pages :
  (choose_page text pages_sent max_pages).2 = 0
  \/ (choose_page text pages_sent max_pages).2 = 3
  \/ (choose_page text pages_sent max_pages).2 = 6.
Proof.
  unfold choose_page.
  destruct (len text <=? 4096), (pages_sent =? max_pages - 1), (pages_sent =? 0);
    simpl; auto.
Qed.

(** The look-up table of the code picks the row of the specification's
    table whose condition holds. *)
Lemma choose_page_table text pages_sent max_pages :
  0 <= pages_sent ->
  spec_table_row MESSAGE_CHAR_LIMIT text pages_sent max_pages
    (choose_page text pages_sent max_pages).1
    (choose_page text pages_sent max_pages).2.
Proof.
  intros Hps. unfold choose_page.
  destruct (Z.leb_spec (len text) 4096) as [Hlen|Hlen].
  - destruct (Z.eqb_spec pages_sent 0) as [H0|H0]; simpl.
    + rewrite slice_to_nonneg by (unfold MESSAGE_CHAR_LIMIT; lia).
      apply row_short_first; [exact Hlen | exact H0].
    + rewrite slice_to_nonneg by (unfold MESSAGE_CHAR_LIMIT; lia).
      apply row_short_later; [exact Hlen | lia].
  - destruct (Z.eqb_spec pages_sent (max_pages - 1)) as [Hf|Hf].
    + destruct (Z.eqb_spec pages_sent 0) as [H0|H0]; simpl.
      * apply row_final_first; [unfold MESSAGE_CHAR_LIMIT; lia | exact Hf | exact H0].
      * apply row_final_later; [unfold MESSAGE_CHAR_LIMIT; lia | exact Hf | lia].
    + destruct (Z.eqb_spec pages_sent 0) as [H0|H0]; simpl.
      * rewrite slice_to_nonneg by (unfold MESSAGE_CHAR_LIMIT; lia).
        apply row_more_first; [unfold MESSAGE_CHAR_LIMIT; lia | exact Hf | exact H0].
      * rewrite slice_to_nonneg by (unfold MESSAGE_CHAR_LIMIT; lia).
        apply row_more_later; [unfold MESSAGE_CHAR_LIMIT; lia | exact Hf | lia].
Qed.

(** The rows of the table exclude one another: a state of the loop has
    one page and one count. *)
Lemma spec_table_row_functional LIMIT text pagesSent maxPages page e page' e' :
  spec_table_row LIMIT text pagesSent maxPages page e ->
  spec_table_row LIMIT text pagesSent maxPages page' e' ->
  page = page' /\ e = e'.
Proof.
  intros H H'. destruct H; destruct H'; try (split; reflexivity); lia.
Qed.

Lemma loop_condition text pages_sent max_pages :
  truthy (PStr text) && (pages_sent <? max_pages) = true
  <-> text <> [] /\ pages_sent < max_pages.
Proof.
  rewrite andb_true_iff, truthy_str, Z.ltb_lt. reflexivity.
Qed.

Section SplitFacts.

Variable bot_respond : list RespondCall -> RespondCall -> Exn + Message.
Variable redact_message : str -> str.

Lemma respond_multi_not_NoFuel pos kw w :
  (respond_multi bot_respond pos kw w).1 <> NoFuel.
Proof.
  rewrite respond_multi_run.
  destruct (respond_cases bot_respond pos (chained_kw (self w) kw) w)
    as [E|(text & _ & Hrun)].
  - rewrite E. discriminate.
  - simpl in Hrun. destruct (bot_respond _ _); rewrite Hrun; discriminate.
Qed.

Lemma respond_split_run text max_pages redact kwargs w :
  respond_split bot_respond redact_message text max_pages redact kwargs w =
  respond_split_loop bot_respond
    (Z.to_nat (resolved_max_pages (self w) max_pages)) kwargs
    (resolved_max_pages (self w) max_pages)
    (resolved_text redact_message (self w) redact text) 0 PNone w.
Proof. reflexivity. Qed.

(** With an allowance of [max_pages - pages_sent] turns, the loop of the
    code is a run of the specification's loop; in particular the
    allowance is never used up. *)
Lemma respond_split_loop_spec kwargs max_pages fuel :
  forall text pages_sent last_msg w,
    0 <= pages_sent ->
    (Z.to_nat (max_pages - pages_sent) <= fuel)%nat ->
    spec_pagination (fun page => respond_multi bot_respond [PStr page] kwargs)
      MESSAGE_CHAR_LIMIT max_pages text pages_sent last_msg w
      (respond_split_loop bot_respond fuel kwargs max_pages text pages_sent
         last_msg w).
Proof.
  induction fuel as [|fuel IH]; intros text pages_sent last_msg w Hps Hfuel.
  - cbn [respond_split_loop].
    destruct (truthy (PStr text) && (pages_sent <? max_pages)) eqn:Hc.
    + apply loop_condition in Hc. lia.
    + apply spec_stop. rewrite <- loop_condition, Hc. discriminate.
  - cbn [respond_split_loop].
    destruct (truthy (PStr text) && (pages_sent <? max_pages)) eqn:Hc.
    + apply loop_condition in Hc. destruct Hc as [Hne Hlt].
      pose proof (choose_page_table text pages_sent max_pages Hps) as Hrow.
      pose proof (choose_page_ellipsis_chars text pages_sent max_pages) as He.
      destruct (choose_page text pages_sent max_pages) as [page e].
      simpl in Hrow, He.
      rewrite slice_from_nonneg by (unfold MESSAGE_CHAR_LIMIT; lia).
      unfold mbind, M_bind.
      pose proof (respond_multi_not_NoFuel [PStr page] kwargs w) as Hnf.
      destruct (respond_multi bot_respond [PStr page] kwargs w)
        as [[handle|ex|] w1] eqn:Hsend.
      * eapply spec_page; eauto. apply IH; lia.
      * eapply spec_abort; eauto.
      * exfalso. apply Hnf. reflexivity.
    + apply spec_stop. rewrite <- loop_condition, Hc. discriminate.
Qed.

(** C1.  For every text, page limit and redaction setting,
    [respond_split] runs the loop of the specification from
    [pagesSent = 0] on the resolved text: while the text is not empty and
    [pagesSent < maxPages] it sends the page of the six-row table,
    drops [LIMIT - ellipsisCharsConsumed] characters from the front of
    the text and counts the page; it returns the handle of the last page
    (or the error of a failing send). *)
Theorem respond_split_follows_table text max_pages redact kwargs w :
  spec_pagination (fun page => respond_multi bot_respond [PStr page] kwargs)
    MESSAGE_CHAR_LIMIT
    (resolved_max_pages (self w) max_pages)
    (resolved_text redact_message (self w) redact text)
    0 PNone w
    (respond_split bot_respond redact_message text max_pages redact kwargs w).
Proof.
  rewrite respond_split_run. apply respond_split_loop_spec; lia.
Qed.

End SplitFacts.

(** ** The pages, one by one *)

Lemma drop_ellipsis (s : str) : drop 3 (ellipsis ++ s) = s.
Proof. reflexivity. Qed.

Lemma take_before_ellipsis (s : str) :
  take (length (s ++ ellipsis) - 3)%nat (s ++ ellipsis) = s.
Proof.
  rewrite length_app. change (length ellipsis) with 3%nat.
  rewrite Nat.add_sub. apply take_app_length.
Qed.

(** Every page is its real content between the markers the branch adds,
    and the real content is the whole text on an oversized last page and
    the first [MESSAGE_CHAR_LIMIT - ellipsis_chars] characters (exactly
    those the loop then drops) on every other page. *)
Lemma choose_page_real_content text pages_sent max_pages :
  let page := (choose_page text pages_sent max_pages).1 in
  let e := (choose_page text pages_sent max_pages).2 in
  let it := mkIteration text pages_sent page e in
  page = (if has_prefix it then ellipsis else [])
           ++ real_content max_pages it
           ++ (if has_suffix max_pages it then ellipsis else [])
  /\ real_content max_pages it =
     if negb (len text <=? 4096) && (pages_sent =? max_pages - 1)
     then text else slice_to (MESSAGE_CHAR_LIMIT - e) text.
Proof.
  unfold real_content, has_prefix, has_suffix, strip_ellipses, choose_page.
  cbn [it_text it_pages_sent it_page it_ellipsis_chars].
  destruct (len text <=? 4096), (pages_sent =? max_pages - 1), (pages_sent =? 0);
    cbn [fst snd negb andb];
    rewrite ?drop_ellipsis, ?take_before_ellipsis, ?app_nil_r;
    split; reflexivity.
Qed.

(** The length of a page: within the limit, except on the last allowed
    page when more than 4096 characters are left. *)
Lemma choose_page_len text pages_sent max_pages :
  len text <= 4096 \/ pages_sent <> max_pages - 1 ->
  len (choose_page text pages_sent max_pages).1 <= MESSAGE_CHAR_LIMIT.
Proof.
  intros H. unfold choose_page.
  destruct (Z.leb_spec (len text) 4096) as [Hlen|Hlen];
    [|destruct (Z.eqb_spec pages_sent (max_pages - 1)) as [Hf|Hf]; [lia|]];
    destruct (pages_sent =? 0); cbn [fst];
    rewrite ?len_app, ?len_ellipsis, ?len_slice_to
      by (unfold MESSAGE_CHAR_LIMIT; lia);
    unfold MESSAGE_CHAR_LIMIT; lia.
Qed.

Lemma choose_page_oversized text pages_sent max_pages :
  len text > 4096 -> pages_sent = max_pages - 1 ->
  (choose_page text pages_sent max_pages).1
  = (if pages_sent =? 0 then [] else ellipsis) ++ text
  /\ len (choose_page text pages_sent max_pages).1 > MESSAGE_CHAR_LIMIT.
Proof.
  intros Hlen Hf. unfold choose_page.
  destruct (Z.leb_spec (len text) 4096) as [Hl|Hl]; [lia|].
  destruct (Z.eqb_spec pages_sent (max_pages - 1)) as [_|Hn]; [|lia].
  destruct (pages_sent =? 0); cbn [fst]; split; try reflexivity;
    rewrite ?len_app, ?len_ellipsis; unfold MESSAGE_CHAR_LIMIT; lia.
Qed.

(** Each turn listed by [iterations] is a turn of the loop: the text is
    not empty, the count is below the limit, and page and count come from
    the look-up table. *)
Lemma iterations_turns max_pages fuel :
  forall text pages_sent,
    0 <= pages_sent ->
    Forall (fun it =>
              it_text it <> []
              /\ 0 <= it_pages_sent it < max_pages
              /\ choose_page (it_text it) (it_pages_sent it) max_pages
                 = (it_page it, it_ellipsis_chars it))
           (iterations fuel max_pages text pages_sent).
Proof.
  induction fuel as [|fuel IH]; intros text pages_sent Hps;
    cbn [iterations];
    destruct (truthy (PStr text) && (pages_sent <? max_pages)) eqn:Hc;
    try constructor.
  - apply loop_condition in Hc. destruct Hc as [Hne Hlt].
    destruct (choose_page text pages_sent max_pages) as [page e] eqn:E.
    constructor.
    + cbn [it_text it_pages_sent it_page it_ellipsis_chars].
      repeat split; try assumption; lia.
    + apply IH. lia.
Qed.

(** The turns count up from [pages_sent]. *)
Lemma iterations_count max_pages fuel :
  forall text pages_sent (i : nat) it,
    iterations fuel max_pages text pages_sent !! i = Some it ->
    it_pages_sent it = pages_sent + Z.of_nat i.
Proof.
  induction fuel as [|fuel IH]; intros text pages_sent i it;
    cbn [iterations];
    destruct (truthy (PStr text) && (pages_sent <? max_pages));
    try (intros H; discriminate).
  destruct (choose_page text pages_sent max_pages) as [page e].
  destruct i as [|i]; simpl.
  - intros [= <-]. simpl. lia.
  - intros H. apply IH in H. lia.
Qed.

(** Round trip: when the loop stops with nothing left, the real contents
    of the pages, in order, are the text. *)
Lemma iterations_roundtrip max_pages fuel :
  forall text pages_sent,
    remaining fuel max_pages text pages_sent = [] ->
    concat (map (real_content max_pages) (iterations fuel max_pages text pages_sent))
    = text.
Proof.
  induction fuel as [|fuel IH]; intros text pages_sent;
    cbn [iterations remaining];
    destruct (truthy (PStr text) && (pages_sent <? max_pages)) eqn:Hc;
    try (intros ->; reflexivity).
  apply loop_condition in Hc. destruct Hc as [Hne Hlt].
  pose proof (choose_page_real_content text pages_sent max_pages) as [_ Hreal].
  pose proof (choose_page_ellipsis_chars text pages_sent max_pages) as He.
  destruct (choose_page text pages_sent max_pages) as [page e].
  cbn [fst snd] in *. intros Hrem.
  cbn [map concat]. rewrite (IH _ _ Hrem), Hreal.
  destruct (Z.leb_spec (len text) 4096) as [Hlen|Hlen]; cbn [negb andb];
    [apply slice_to_from|].
  destruct (Z.eqb_spec pages_sent (max_pages - 1)) as [Hf|Hf];
    [|apply slice_to_from].
  (* an oversized last page leaves text behind *)
  exfalso.
  assert (Hstop : remaining fuel max_pages
                    (slice_from (MESSAGE_CHAR_LIMIT - e) text) (pages_sent + 1)
                  = slice_from (MESSAGE_CHAR_LIMIT - e) text).
  { destruct fuel; cbn [remaining];
      destruct (Z.ltb_spec (pages_sent + 1) max_pages); try lia;
      rewrite andb_false_r; reflexivity. }
  rewrite Hstop in Hrem.
  assert (Hl : len (slice_from (MESSAGE_CHAR_LIMIT - e) text) = 0)
    by (rewrite Hrem; reflexivity).
  rewrite len_slice_from in Hl by (unfold MESSAGE_CHAR_LIMIT; lia).
  unfold MESSAGE_CHAR_LIMIT in Hl. lia.
Qed.

(** A page limit that is large enough: with [max_pages - 1] pages of
    [MESSAGE_CHAR_LIMIT - 6] characters each covering the text, the loop
    stops with nothing left. *)
Lemma remaining_empty max_pages fuel :
  forall text pages_sent,
    (Z.to_nat (max_pages - pages_sent) <= fuel)%nat ->
    text = [] \/ len text <= (MESSAGE_CHAR_LIMIT - 6) * (max_pages - 1 - pages_sent) ->
    remaining fuel max_pages text pages_sent = [].
Proof.
  induction fuel as [|fuel IH]; intros text pages_sent Hfuel Hbound;
    cbn [remaining];
    destruct (truthy (PStr text) && (pages_sent <? max_pages)) eqn:Hc.
  - apply loop_condition in Hc. lia.
  - destruct Hbound as [->|Hb]; [reflexivity|].
    destruct (decide (text = [])) as [->|Hne]; [reflexivity|].
    exfalso.
    assert (Hnot : ~ (text <> [] /\ pages_sent < max_pages))
      by (rewrite <- loop_condition, Hc; discriminate).
    assert (0 < len text)
      by (unfold len; destruct text; [congruence | simpl; lia]).
    apply Hnot. split; [exact Hne|].
    unfold MESSAGE_CHAR_LIMIT in Hb. lia.
  - apply loop_condition in Hc. destruct Hc as [Hne Hlt].
    destruct Hbound as [->|Hb]; [congruence|].
    pose proof (choose_page_ellipsis_chars text pages_sent max_pages) as He.
    apply IH; [lia|].
    destruct (Z.le_gt_cases (len text)
                (MESSAGE_CHAR_LIMIT - (choose_page text pages_sent max_pages).2))
      as [Hall|Hmore].
    + left. apply slice_from_all. exact Hall.
    + right. rewrite len_slice_from by (unfold MESSAGE_CHAR_LIMIT; lia).
      unfold MESSAGE_CHAR_LIMIT in *. lia.
  - destruct Hbound as [->|Hb]; [reflexivity|].
    destruct (decide (text = [])) as [->|Hne]; [reflexivity|].
    exfalso.
    assert (Hnot : ~ (text <> [] /\ pages_sent < max_pages))
      by (rewrite <- loop_condition, Hc; discriminate).
    assert (0 < len text)
      by (unfold len; destruct text; [congruence | simpl; lia]).
    apply Hnot. split; [exact Hne|].
    unfold MESSAGE_CHAR_LIMIT in Hb. lia.
Qed.

(** ** The pages as the transport receives them *)

Section SentFacts.

Variable bot_respond : list RespondCall -> RespondCall -> Exn + Message.
Variable redact_message : str -> str.

(** Sending one page: no call on a binding error, one call otherwise,
    with the page as text and [redact] as the keywords give it ([True]
    by default). *)
Lemma respond_multi_page page kwargs w :
  let out := respond_multi bot_respond [PStr page] kwargs w in
  out = (Raise TypeError, w)
  \/ exists call,
       calls out.2 = calls w ++ [call]
       /\ rc_text call = PStr page
       /\ rc_redact call = param kwargs "redact" (PBool true)
       /\ match bot_respond (calls w) call with
          | inr m => out.1 = Ok (PMsg m)
          | inl e => out.1 = Raise e
          end.
Proof.
  simpl. rewrite respond_multi_run.
  destruct (respond_cases bot_respond [PStr page] (chained_kw (self w) kwargs) w)
    as [E|(text & Hb & Hrun)]; [left; exact E|].
  right. simpl in Hrun.
  exists (respond_call (self w) text (chained_kw (self w) kwargs)).
  assert (text = PStr page) as ->.
  { unfold bind_text in Hb.
    destruct (chained_kw (self w) kwargs !! "text"%string); congruence. }
  assert (Hred : rc_redact (respond_call (self w) (PStr page)
                              (chained_kw (self w) kwargs))
                 = param kwargs "redact" (PBool true)).
  { simpl. unfold param. rewrite chained_other; [reflexivity|].
    intros Hin. repeat (inversion Hin as [|? ? ? Hin']; subst; clear Hin;
                        rename Hin' into Hin). }
  destruct (bot_respond _ _); rewrite Hrun; simpl; repeat split; exact Hred.
Qed.

(** The calls of a run of the loop are the pages of its turns, in order;
    all of them when the run returns, the first ones when a send
    raises. *)
Lemma respond_split_loop_sent kwargs max_pages fuel :
  forall text pages_sent last_msg w,
    (Z.to_nat (max_pages - pages_sent) <= fuel)%nat ->
    let out := respond_split_loop bot_respond fuel kwargs max_pages text
                 pages_sent last_msg w in
    let its := iterations fuel max_pages text pages_sent in
    exists cs,
      calls out.2 = calls w ++ cs
      /\ Forall2 (fun c it => rc_text c = PStr (it_page it)
                              /\ rc_redact c = param kwargs "redact" (PBool true))
                 cs (take (length cs) its)
      /\ (length cs <= length its)%nat
      /\ out.1 <> NoFuel
      /\ (forall r, out.1 = Ok r -> length cs = length its).
Proof.
  induction fuel as [|fuel IH]; intros text pages_sent last_msg w Hfuel;
    cbn [respond_split_loop iterations];
    destruct (truthy (PStr text) && (pages_sent <? max_pages)) eqn:Hc.
  - apply loop_condition in Hc. lia.
  - exists []. simpl. rewrite app_nil_r.
    repeat split; try constructor; try discriminate.
  - apply loop_condition in Hc. destruct Hc as [Hne Hlt].
    destruct (choose_page text pages_sent max_pages) as [page e].
    unfold mbind, M_bind.
    destruct (respond_multi_page page kwargs w)
      as [E|(call & Hcalls & Htext & Hred & Hres)].
    + rewrite E. exists []. simpl. rewrite app_nil_r.
      repeat split; try constructor; try discriminate. lia.
    + destruct (respond_multi bot_respond [PStr page] kwargs w)
        as [[handle|ex|] w1] eqn:Hsend; simpl in Hcalls, Hres.
      * destruct (IH (slice_from (MESSAGE_CHAR_LIMIT - e) text)
                     (pages_sent + 1) handle w1) as (cs & Hc1 & Hf2 & Hlen & Hnf & Hok);
          [lia|].
        exists (call :: cs).
        split; [rewrite Hc1, Hcalls, <- app_assoc; reflexivity|].
        split; [simpl; constructor; [split; assumption | exact Hf2]|].
        split; [simpl; lia|].
        split; [exact Hnf|].
        intros r Hr. pose proof (Hok r Hr) as Hl. simpl. lia.
      * exists [call]. simpl.
        split; [exact Hcalls|].
        split; [constructor; [split; assumption | constructor]|].
        split; [lia|].
        split; discriminate.
      * destruct (bot_respond (calls w) call); discriminate.
  - exists []. simpl. rewrite app_nil_r.
    repeat split; try constructor; try discriminate.
Qed.

End SentFacts.

(** ** [respond_split] *)

Section RespondSplitFacts.

Variable bot_respond : list RespondCall -> RespondCall -> Exn + Message.
Variable redact_message : str -> str.

Lemma respond_split_loop_stop fuel kwargs max_pages pages_sent last_msg w :
  respond_split_loop bot_respond fuel kwargs max_pages [] pages_sent last_msg w
  = (Ok last_msg, w).
Proof. destruct fuel; reflexivity. Qed.

(** The model never cuts a run of [respond_split] short: it returns or
    raises, as the code does after at most [max_pages] turns. *)
Lemma respond_split_terminates text max_pages redact kwargs w :
  (respond_split bot_respond redact_message text max_pages redact kwargs w).1
  <> NoFuel.
Proof.
  rewrite respond_split_run.
  destruct (respond_split_loop_sent bot_respond kwargs
              (resolved_max_pages (self w) max_pages)
              (Z.to_nat (resolved_max_pages (self w) max_pages))
              (resolved_text redact_message (self w) redact text) 0 PNone w)
    as (cs & _ & _ & _ & H & _); [lia | exact H].
Qed.

(** C10.  Whatever the redaction setting of the split resolves to, as
    long as the remaining keywords hold no [redact], every call the
    pages make to the transport carries [redact=True], the default of
    [respond]. *)
Theorem respond_split_pages_redact_default text max_pages redact kwargs w :
  kwargs !! "redact"%string = None ->
  let out := respond_split bot_respond redact_message text max_pages redact kwargs w in
  exists cs,
    calls out.2 = calls w ++ cs
    /\ Forall (fun c => rc_redact c = PBool true) cs.
Proof.
  intros Hkw out. subst out. rewrite respond_split_run.
  destruct (respond_split_loop_sent bot_respond kwargs
              (resolved_max_pages (self w) max_pages)
              (Z.to_nat (resolved_max_pages (self w) max_pages))
              (resolved_text redact_message (self w) redact text) 0 PNone w)
    as (cs & Hcalls & Hf2 & _); [lia|].
  exists cs. split; [exact Hcalls|].
  eapply Forall2_Forall_l; [exact Hf2|].
  apply Forall_forall. intros it _ c [_ Hr].
  rewrite Hr. unfold param. rewrite Hkw. reflexivity.
Qed.



(** C3, amended.  The calls of [respond_split] are the pages of the
    turns of its loop, in order.  The page of turn [i] is at most
    [MESSAGE_CHAR_LIMIT] characters long unless [i] is the last allowed
    page ([i = max_pages - 1]) and more than the limit is left to send;
    in that case the page is all the text that is left, after ["..."]
    when it is not the first page. *)
Theorem respond_split_page_length text max_pages redact kwargs w :
  let mp := resolved_max_pages (self w) max_pages in
  let text' := resolved_text redact_message (self w) redact text in
  let out := respond_split bot_respond redact_message text max_pages redact kwargs w in
  let its := iterations (Z.to_nat mp) mp text' 0 in
  exists cs,
    calls out.2 = calls w ++ cs
    /\ forall (i : nat) c,
         cs !! i = Some c ->
         exists it,
           its !! i = Some it
           /\ it_pages_sent it = Z.of_nat i
           /\ rc_text c = PStr (it_page it)
           /\ (Z.of_nat i <> mp - 1 \/ len (it_text it) <= MESSAGE_CHAR_LIMIT ->
               len (it_page it) <= MESSAGE_CHAR_LIMIT)
           /\ (Z.of_nat i = mp - 1 -> len (it_text it) > MESSAGE_CHAR_LIMIT ->
               it_page it = (if Z.of_nat i =? 0 then [] else ellipsis) ++ it_text it).
Proof.
  intros mp text' out its. subst out. rewrite respond_split_run.
  fold mp text'.
  destruct (respond_split_loop_sent bot_respond kwargs mp (Z.to_nat mp) text' 0
              PNone w) as (cs & Hcalls & Hf2 & Hlen & _); [lia|].
  exists cs. split; [exact Hcalls|].
  intros i c Hi.
  destruct (Forall2_lookup_l _ _ _ _ _ Hf2 Hi) as (it & Hit & Htext & _).
  apply lookup_take_Some in Hit. destruct Hit as [Hit _].
  fold its in Hit.
  pose proof (iterations_count mp (Z.to_nat mp) text' 0 i it Hit) as Hcount.
  pose proof (iterations_turns mp (Z.to_nat mp) text' 0 (Z.le_refl 0)) as Hturns.
  rewrite Forall_forall in Hturns.
  destruct (Hturns it) as (_ & _ & Hchoose);
    [apply list_elem_of_lookup; exists i; exact Hit|].
  exists it. split; [exact Hit|].
  split; [lia|].
  split; [exact Htext|].
  assert (Hpage : it_page it
                  = (choose_page (it_text it) (it_pages_sent it) mp).1)
    by (rewrite Hchoose; reflexivity).
  split.
  - intros Hcase. rewrite Hpage. apply choose_page_len.
    unfold MESSAGE_CHAR_LIMIT in Hcase. lia.
  - intros Hlast Hbig. rewrite Hpage.
    replace (Z.of_nat i) with (it_pages_sent it) by lia.
    apply choose_page_oversized; [unfold MESSAGE_CHAR_LIMIT in Hbig|]; lia.
Qed.

(** C2.  With redaction off and a page limit under which the loop stops
    with nothing left to send, a run of [respond_split] that returns has
    sent the pages of its turns, in order; each page is its real content
    between the ellipsis markers added to it, and the real contents put
    together, in order, are the text that was given. *)
Theorem respond_split_roundtrip text max_pages redact kwargs w r w' :
  let mp := resolved_max_pages (self w) max_pages in
  let its := iterations (Z.to_nat mp) mp text 0 in
  respond_split bot_respond redact_message text max_pages redact kwargs w
  = (Ok r, w') ->
  resolved_redact (self w) redact = false ->
  remaining (Z.to_nat mp) mp text 0 = [] ->
  exists cs,
    calls w' = calls w ++ cs
    /\ Forall2 (fun c it => rc_text c = PStr (it_page it)) cs its
    /\ Forall (fun it =>
                 it_page it =
                 (if has_prefix it then ellipsis else [])
                   ++ real_content mp it
                   ++ (if has_suffix mp it then ellipsis else [])) its
    /\ concat (map (real_content mp) its) = text.
Proof.
  intros mp its Hrun Hredact Hrem.
  rewrite respond_split_run in Hrun. fold mp in Hrun.
  unfold resolved_text in Hrun. rewrite Hredact in Hrun.
  destruct (respond_split_loop_sent bot_respond kwargs mp (Z.to_nat mp) text 0
              PNone w) as (cs & Hcalls & Hf2 & _ & _ & Hok); [lia|].
  rewrite Hrun in Hcalls, Hok. simpl in Hcalls, Hok.
  specialize (Hok r eq_refl). fold its in Hf2, Hok.
  rewrite Hok, take_ge in Hf2 by lia.
  exists cs. split; [exact Hcalls|].
  split; [eapply Forall2_impl; [exact Hf2 | intros c it [H _]; exact H]|].
  split; [|apply iterations_roundtrip; exact Hrem].
  pose proof (iterations_turns mp (Z.to_nat mp) text 0 (Z.le_refl 0)) as Hturns.
  fold its in Hturns.
  eapply Forall_impl; [exact Hturns|].
  intros [t ps page e] (_ & _ & Hchoose). simpl in Hchoose.
  pose proof (choose_page_real_content t ps mp) as [Hdec _].
  rewrite Hchoose in Hdec. exact Hdec.
Qed.

End RespondSplitFacts.

(** The loop of the specification has one outcome, so the run of the code
    is the run the specification describes. *)
Lemma spec_pagination_functional send LIMIT maxPages text pagesSent last w out out' :
  spec_pagination send LIMIT maxPages text pagesSent last w out ->
  spec_pagination send LIMIT maxPages text pagesSent last w out' ->
  out = out'.
Proof.
  intros H. revert out'.
  induction H as [text pagesSent last w Hstop
                 |text pagesSent last w page consumed handle w1 out Hne Hlt Hrow Hsend Hrest IH
                 |text pagesSent last w page consumed e w1 Hne Hlt Hrow Hsend];
    intros out' H'; inversion H'; subst; try reflexivity;
    try (exfalso; apply Hstop; split; assumption);
    try (exfalso; match goal with Hs : ~ _ |- _ => apply Hs; split; assumption end);
    match goal with
    | Hrow' : spec_table_row _ _ _ _ ?p ?c |- _ =>
        destruct (spec_table_row_functional _ _ _ _ _ _ _ _ Hrow Hrow') as [<- <-]
    end;
    match goal with
    | Hsend' : send page w = _ |- _ => rewrite Hsend in Hsend'; inversion Hsend'; subst
    end;
    try reflexivity.
  apply IH. assumption.
Qed.

(** A page limit that is large enough for a text. *)
Lemma large_max_pages_no_truncation text max_pages :
  len text <= (MESSAGE_CHAR_LIMIT - 6) * (max_pages - 1) ->
  remaining (Z.to_nat max_pages) max_pages text 0 = [].
Proof.
  intros H. apply remaining_empty; [lia|].
  right. rewrite Z.sub_0_r. exact H.
Qed.

(** The three lengths the specification asks to try. *)
Lemma spec_lengths_no_truncation text max_pages :
  len text = MESSAGE_CHAR_LIMIT + 1
  \/ len text = 2 * MESSAGE_CHAR_LIMIT
  \/ len text = 10 * MESSAGE_CHAR_LIMIT ->
  12 <= max_pages ->
  remaining (Z.to_nat max_pages) max_pages text 0 = [].
Proof.
  intros H Hmp. apply large_max_pages_no_truncation.
  unfold MESSAGE_CHAR_LIMIT in *. lia.
Qed.

(** ** Runs on sample inputs *)

Lemma respond_split_pages_redact_default_witness :
  let out := respond_split numbering_transport (fun s => s)
               (list_ascii_of_string "hello") None (Some false) ∅ sample_world in
  exists cs,
    calls out.2 = calls sample_world ++ cs
    /\ Forall (fun c => rc_redact c = PBool true) cs.
Proof.
  apply (respond_split_pages_redact_default numbering_transport (fun s => s)
           (list_ascii_of_string "hello") None (Some false) ∅ sample_world).
  reflexivity.
Defined.



(** The empty text is no longer than the limit, and no page is sent for
    it: the result is [None]. *)
Lemma respond_split_empty_text_sends_nothing :
  let out := respond_split numbering_transport (fun s => s) [] (Some 1)
               (Some false) ∅ sample_world in
  len ([] : str) <= MESSAGE_CHAR_LIMIT
  /\ out = (Ok PNone, sample_world)
  /\ ~ (exists call, calls out.2 = calls sample_world ++ [call]).
Proof.
  split; [vm_compute; discriminate|].
  split; [reflexivity|].
  intros [call H]. vm_compute in H. discriminate.
Qed.

(** With [max_pages = 1], a text of 4097 characters goes out as one page
    of 4097 characters. *)
Lemma respond_split_oversized_last_page :
  let out := respond_split numbering_transport (fun s => s) (filler 4097) (Some 1)
               (Some false) ∅ sample_world in
  map rc_text (calls out.2) = [PStr (filler 4097)]
  /\ ~ (len (filler 4097) <= MESSAGE_CHAR_LIMIT).
Proof.
  split; [vm_compute; reflexivity|].
  vm_compute. intros H. apply H. reflexivity.
Qed.

Lemma respond_split_roundtrip_witness :
  let its := iterations 2 2 (filler 4097) 0 in
  exists r w' cs,
    respond_split numbering_transport (fun s => s) (filler 4097) (Some 2)
      (Some false) ∅ sample_world = (Ok r, w')
    /\ calls w' = calls sample_world ++ cs
    /\ Forall2 (fun c it => rc_text c = PStr (it_page it)) cs its
    /\ Forall (fun it =>
                 it_page it =
                 (if has_prefix it then ellipsis else [])
                   ++ real_content 2 it
                   ++ (if has_suffix 2 it then ellipsis else [])) its
    /\ concat (map (real_content 2) its) = filler 4097.
Proof.
  intros its.
  assert (E : exists r w',
             respond_split numbering_transport (fun s => s) (filler 4097) (Some 2)
               (Some false) ∅ sample_world = (Ok r, w'))
    by (eexists; eexists; vm_compute; reflexivity).
  destruct E as (r & w' & E).
  destruct (respond_split_roundtrip numbering_transport (fun s => s) (filler 4097)
              (Some 2) (Some false) ∅ sample_world r w' E)
    as (cs & H); [reflexivity | vm_compute; reflexivity |].
  exists r, w', cs. split; [exact E | exact H].
Defined.

(** ** Deferred deletion *)

(** The task deletes the response the context holds when the task runs. *)
Lemma run_task_deletes_current delete_after w m :
  ctx_response (self w) = PMsg m ->
  deleted (run_task (DeleteTask delete_after) w) = deleted w ++ [m].
Proof. intros H. simpl. rewrite H. reflexivity. Qed.

(** Whatever the transport: when a call with a non-zero [delete_after] is
    followed by another call of [respond] on the context, the task of the
    first call deletes the message of the second. *)
Lemma delete_task_follows_response bot_respond pos1 kw1 pos2 kw2 w r1 w1 r2 w2 :
  tasks w = [] ->
  py_eq (param kw1 "delete_after" (PInt 0)) (PInt 0) = false ->
  py_eq (param kw2 "delete_after" (PInt 0)) (PInt 0) = true ->
  respond bot_respond pos1 kw1 w = (Ok r1, w1) ->
  respond bot_respond pos2 kw2 w1 = (Ok r2, w2) ->
  exists m2, r2 = PMsg m2 /\ deleted (run_pending w2) = deleted w ++ [m2].
Proof.
  intros Ht Hd1 Hd2 H1 H2.
  apply respond_ok in H1.
  destruct H1 as (t1 & m1 & _ & _ & _ & _ & _ & _ & Hdel1 & Htasks1).
  apply respond_ok in H2.
  destruct H2 as (t2 & m2 & _ & _ & -> & _ & Hself2 & _ & Hdel2 & Htasks2).
  rewrite Hd1 in Htasks1. rewrite Hd2 in Htasks2. simpl in Htasks1, Htasks2.
  exists m2. split; [reflexivity|].
  unfold run_pending. rewrite Htasks2, Htasks1, Ht. simpl.
  rewrite Hself2. simpl. rewrite Hdel2, Hdel1. reflexivity.
Qed.

(** A single [respond] with [delete_after=5]: the call returns with the
    task pending and nothing deleted; when the task runs, the message
    just sent is deleted, once. *)
Lemma respond_delete_after_alone :
  let ok := PStr (list_ascii_of_string "ok") in
  let sent := mkMessage 100 7 None (Some (list_ascii_of_string "ok")) in
  exists w1,
    respond numbering_transport [ok] {[ "delete_after"%string := PInt 5 ]}
      sample_world = (Ok (PMsg sent), w1)
    /\ tasks w1 = [DeleteTask (PInt 5)]
    /\ deleted w1 = []
    /\ deleted (run_pending w1) = [sent]
    /\ tasks (run_pending w1) = [].
Proof. eexists. repeat split; vm_compute; reflexivity. Qed.

(** C4.  [respond("ok", delete_after=5)] followed, before the five seconds
    are over, by [respond("more", mode="reply")] on the same context: when
    the scheduled task runs it deletes the message of the second call;
    the message the first call sent and returned is never deleted. *)
Theorem respond_delete_after_deletes_latest :
  let ok := PStr (list_ascii_of_string "ok") in
  let more := PStr (list_ascii_of_string "more") in
  let reply := PStr (list_ascii_of_string "reply") in
  let first := mkMessage 100 7 None (Some (list_ascii_of_string "ok")) in
  let second := mkMessage 101 7 None (Some (list_ascii_of_string "more")) in
  exists w1 w2,
    respond numbering_transport [ok] {[ "delete_after"%string := PInt 5 ]}
      sample_world = (Ok (PMsg first), w1)
    /\ tasks w1 = [DeleteTask (PInt 5)]
    /\ deleted w1 = []
    /\ respond numbering_transport [more] {[ "mode"%string := reply ]} w1
       = (Ok (PMsg second), w2)
    /\ first <> second
    /\ deleted (run_pending w2) = [second]
    /\ first ∉ deleted (run_pending w2).
Proof.
  eexists. eexists.
  split; [vm_compute; reflexivity|].
  split; [reflexivity|].
  split; [reflexivity|].
  split; [vm_compute; reflexivity|].
  split; [discriminate|].
  split; [vm_compute; reflexivity|].
  vm_compute. intros H.
  apply list_elem_of_In in H. destruct H as [H|[]]. discriminate.
Qed.

(** * Further properties *)

(** ** Decorators and [Command] *)

Lemma getattr_setattr func name value name' dflt :
  getattr (setattr func name value) name' dflt =
  if decide (name = name') then value else getattr func name' dflt.
Proof.
  unfold getattr, setattr. simpl. rewrite lookup_insert.
  case_decide; reflexivity.
Qed.

(** X3.  A decorator returns the function it was given, with only its own
    attributes written. *)
Theorem decorator_frame re_compile d func func' :
  apply_decorator re_compile d func = Some func' ->
  func_id func' = func_id func
  /\ forall name : string,
       name ∉ decorator_names d ->
       func_attrs func' !! name = func_attrs func !! name.
Proof.
  intros H. destruct d as [s|u o r|l|p]; simpl in H.
  - inversion H; subst. split; [reflexivity|].
    intros name Hn. simpl. apply lookup_insert_ne.
    intros <-. apply Hn. repeat constructor.
  - inversion H; subst. split; [reflexivity|].
    intros name Hn. simpl.
    rewrite !lookup_insert_ne; [reflexivity|..];
      intros <-; apply Hn; repeat constructor.
  - inversion H; subst. split; [reflexivity|].
    intros name Hn. simpl. apply lookup_insert_ne.
    intros <-. apply Hn. repeat constructor.
  - unfold pattern in H. destruct (re_compile p); [|discriminate].
    inversion H; subst. split; [reflexivity|].
    intros name Hn. simpl. apply lookup_insert_ne.
    intros <-. apply Hn. repeat constructor.
Qed.

Lemma decorator_frame_witness :
  func_id (desc "Says it" sample_func) = func_id sample_func
  /\ forall name : string,
       name ∉ decorator_names (Desc "Says it") ->
       func_attrs (desc "Says it" sample_func) !! name
       = func_attrs sample_func !! name.
Proof.
  apply (decorator_frame sample_compile (Desc "Says it") sample_func
           (desc "Says it" sample_func)).
  reflexivity.
Defined.

(** X2.  Two decorators of different kinds can be written in either order: the
    decorated function is the same. *)
Theorem decorators_commute re_compile d1 d2 func :
  decorator_names d1 <> decorator_names d2 ->
  (apply_decorator re_compile d1 func ≫= apply_decorator re_compile d2)
  = (apply_decorator re_compile d2 func ≫= apply_decorator re_compile d1).
Proof.
  intros Hkind.
  destruct d1 as [s1|u1 o1 r1|l1|p1], d2 as [s2|u2 o2 r2|l2|p2];
    try (exfalso; apply Hkind; reflexivity);
    unfold apply_decorator, pattern; simpl;
    repeat match goal with
           | |- context [re_compile ?p] => destruct (re_compile p); simpl
           end;
    try reflexivity;
    f_equal; unfold desc, usage, alias, setattr; simpl; f_equal;
    apply map_eq; intros k;
    repeat (rewrite lookup_insert; case_decide);
    subst; try reflexivity; congruence.
Qed.

Lemma decorators_commute_witness :
  (apply_decorator sample_compile (Desc "Says it") sample_func
     ≫= apply_decorator sample_compile (Usage "[text]" true false))
  = (apply_decorator sample_compile (Usage "[text]" true false) sample_func
       ≫= apply_decorator sample_compile (Desc "Says it")).
Proof.
  apply (decorators_commute sample_compile (Desc "Says it")
           (Usage "[text]" true false) sample_func).
  discriminate.
Defined.

(** X1.  The metadata of a [Command] built from a decorated function: for each
    kind, what the topmost decorator of that kind gave, and what the
    undecorated function had when the stack has no decorator of that kind;
    [usage] sets its two flags together with the usage text. *)
Theorem Command_init_decorated re_compile ds func func' name mod_ :
  decorate re_compile ds func = Some func' ->
  let c := Command_init name mod_ func' in
  let c0 := Command_init name mod_ func in
  cmd_desc c = match top_desc ds with
               | Some s => AStr s
               | None => cmd_desc c0
               end
  /\ cmd_usage c = match top_usage ds with
                   | Some (u, _, _) => AStr u
                   | None => cmd_usage c0
                   end
  /\ cmd_usage_optional c = match top_usage ds with
                            | Some (_, o, _) => ABool o
                            | None => cmd_usage_optional c0
                            end
  /\ cmd_usage_reply c = match top_usage ds with
                         | Some (_, _, r) => ABool r
                         | None => cmd_usage_reply c0
                         end
  /\ cmd_aliases c = match top_alias ds with
                     | Some l => ATuple l
                     | None => cmd_aliases c0
                     end
  /\ match top_pattern ds with
     | Some p => Some (cmd_pattern c) = APattern <$> re_compile p
     | None => cmd_pattern c = cmd_pattern c0
     end
  /\ func_id (cmd_func c) = func_id func.
Proof.
  revert func'. induction ds as [|d ds IH]; intros func' H; simpl in H.
  - inversion H; subst. simpl. repeat split.
  - destruct (decorate re_compile ds func) as [f|] eqn:Ef; [|discriminate].
    specialize (IH f eq_refl). simpl in IH.
    destruct IH as (Hd & Hu & Ho & Hr & Ha & Hp & Hid).
    destruct d as [s|u o r|l|p]; simpl in H.
    + inversion H; subst. simpl. unfold desc.
      rewrite !getattr_setattr. simpl.
      repeat split; assumption.
    + inversion H; subst. simpl. unfold usage.
      rewrite !getattr_setattr. simpl.
      repeat split; assumption.
    + inversion H; subst. simpl. unfold alias.
      rewrite !getattr_setattr. simpl.
      repeat split; assumption.
    + unfold pattern in H. destruct (re_compile p) as [q|] eqn:Ep; [|discriminate].
      inversion H; subst. simpl.
      rewrite !getattr_setattr. simpl. rewrite Ep.
      repeat split; assumption.
Qed.

Lemma Command_init_decorated_witness :
  let ds := [Desc "Says it"; Usage "[text]" true false; Desc "old";
             Alias ["s"; "echo"]; Pat "^say"]%string in
  exists func',
    decorate sample_compile ds sample_func = Some func'
    /\ cmd_desc (Command_init "say" 1 func') = AStr "Says it"
    /\ cmd_usage_optional (Command_init "say" 1 func') = ABool true
    /\ cmd_usage_reply (Command_init "say" 1 func') = ABool false
    /\ cmd_aliases (Command_init "say" 1 func') = ATuple ["s"; "echo"]%string.
Proof.
  intros ds.
  assert (E : exists func', decorate sample_compile ds sample_func = Some func')
    by (eexists; vm_compute; reflexivity).
  destruct E as (func' & E). exists func'.
  destruct (Command_init_decorated sample_compile ds sample_func func' "say" 1 E)
    as (Hd & _ & Ho & Hr & Ha & _).
  repeat split; assumption.
Defined.

(** ** More on the turns of the loop *)

Lemma iterations_nil fuel max_pages text pages_sent :
  text = [] \/ max_pages <= pages_sent ->
  iterations fuel max_pages text pages_sent = [].
Proof.
  intros H.
  assert (Hc : truthy (PStr text) && (pages_sent <? max_pages) = false).
  { destruct (truthy (PStr text) && (pages_sent <? max_pages)) eqn:E; [|reflexivity].
    apply loop_condition in E. destruct E as [Hne Hlt].
    destruct H; [congruence | lia]. }
  destruct fuel; cbn [iterations]; rewrite Hc; reflexivity.
Qed.

(** The loop takes at most [max_pages - pages_sent] turns. *)
Lemma iterations_length max_pages fuel :
  forall text pages_sent,
    (length (iterations fuel max_pages text pages_sent)
     <= Z.to_nat (max_pages - pages_sent))%nat.
Proof.
  induction fuel as [|fuel IH]; intros text pages_sent; cbn [iterations];
    destruct (truthy (PStr text) && (pages_sent <? max_pages)) eqn:Hc;
    simpl; try lia.
  apply loop_condition in Hc. destruct Hc as [_ Hlt].
  destruct (choose_page text pages_sent max_pages) as [page e]. simpl.
  specialize (IH (slice_from (MESSAGE_CHAR_LIMIT - e) text) (pages_sent + 1)).
  lia.
Qed.

Lemma remaining_stop fuel max_pages text pages_sent :
  text = [] \/ max_pages <= pages_sent ->
  remaining fuel max_pages text pages_sent = text.
Proof.
  intros H.
  assert (Hc : truthy (PStr text) && (pages_sent <? max_pages) = false).
  { destruct (truthy (PStr text) && (pages_sent <? max_pages)) eqn:E; [|reflexivity].
    apply loop_condition in E. destruct E as [Hne Hlt].
    destruct H; [congruence | lia]. }
  destruct fuel; cbn [remaining]; rewrite Hc; reflexivity.
Qed.

Lemma len_pos (s : str) : s <> [] -> 0 < len s.
Proof. destruct s; [congruence|]. intros _. unfold len. simpl. lia. Qed.

Lemma len_nil_inv (s : str) : len s <= 0 -> s = [].
Proof. destruct s; [reflexivity|]. unfold len. simpl. lia. Qed.

(** What a run hands to the transport, against the text: everything, or
    everything but the last one to three characters. *)
Lemma iterations_loss max_pages fuel :
  forall text pages_sent,
    0 <= pages_sent ->
    (Z.to_nat (max_pages - pages_sent) <= fuel)%nat ->
    text = [] \/ pages_sent < max_pages ->
    let its := iterations fuel max_pages text pages_sent in
    let rest := remaining fuel max_pages text pages_sent in
    concat (map (real_content max_pages) its) = text
    \/ (concat (map (real_content max_pages) its) ++ rest = text
        /\ 1 <= len rest <= 3
        /\ 1 <= pages_sent + Z.of_nat (length its) - 1).
Proof.
  induction fuel as [|fuel IH]; intros text pages_sent Hps Hfuel Hstart;
    cbn [iterations remaining];
    destruct (truthy (PStr text) && (pages_sent <? max_pages)) eqn:Hc.
  - apply loop_condition in Hc. lia.
  - left. destruct Hstart as [->|Hlt]; [reflexivity|].
    destruct (decide (text = [])) as [->|Hne]; [reflexivity|].
    exfalso. assert (Hc' : truthy (PStr text) && (pages_sent <? max_pages) = true)
      by (apply loop_condition; split; assumption).
    congruence.
  - apply loop_condition in Hc. destruct Hc as [Hne Hlt].
    pose proof (choose_page_real_content text pages_sent max_pages) as [_ Hreal].
    pose proof (choose_page_ellipsis_chars text pages_sent max_pages) as He.
    pose proof (len_pos text Hne) as Hpos.
    destruct (choose_page text pages_sent max_pages) as [page e] eqn:Ecp.
    cbn [fst snd] in *. cbn [map concat length]. rewrite Hreal.
    set (next := slice_from (MESSAGE_CHAR_LIMIT - e) text).
    assert (Hnext : len next = Z.max 0 (len text - (MESSAGE_CHAR_LIMIT - e)))
      by (apply len_slice_from; unfold MESSAGE_CHAR_LIMIT; lia).
    destruct (Z.leb_spec (len text) 4096) as [Hlen|Hlen]; cbn [negb andb].
    + (* a page of at most 4096 characters *)
      destruct (Z.eq_dec pages_sent 0) as [H0|H0].
      * (* the first page takes it all *)
        assert (e = 0) as ->.
        { unfold choose_page in Ecp.
          destruct (Z.leb_spec (len text) 4096); [|lia].
          rewrite H0 in Ecp. simpl in Ecp. congruence. }
        assert (Hnil : next = [])
          by (apply len_nil_inv; unfold MESSAGE_CHAR_LIMIT in Hnext; lia).
        left. rewrite iterations_nil by (left; exact Hnil).
        simpl. rewrite app_nil_r. apply slice_to_all.
        unfold MESSAGE_CHAR_LIMIT. lia.
      * assert (e = 3) as ->.
        { unfold choose_page in Ecp.
          destruct (Z.leb_spec (len text) 4096); [|lia].
          destruct (Z.eqb_spec pages_sent 0); [lia|]. congruence. }
        fold next.
        destruct (decide (next = [] \/ pages_sent + 1 < max_pages)) as [Hgo|Hstop].
        -- destruct (IH next (pages_sent + 1)) as [Hall|(Hcat & Hrest & Hcount)];
             [lia | lia | exact Hgo | |].
           ++ left. rewrite Hall. apply slice_to_from.
           ++ right. split; [|split; [exact Hrest | lia]].
              rewrite <- app_assoc, Hcat. apply slice_to_from.
        -- right.
           assert (Hne' : next <> []) by (intros E; apply Hstop; left; exact E).
           assert (Hlast : max_pages <= pages_sent + 1) by lia.
           rewrite iterations_nil by (right; exact Hlast).
           rewrite remaining_stop by (right; exact Hlast).
           simpl. rewrite app_nil_r. split; [apply slice_to_from|].
           pose proof (len_pos next Hne').
           unfold MESSAGE_CHAR_LIMIT in Hnext. lia.
    + destruct (Z.eqb_spec pages_sent (max_pages - 1)) as [Hf|Hf].
      * (* the oversized last page carries all that is left *)
        left. rewrite iterations_nil by (right; lia).
        simpl. apply app_nil_r.
      * fold next.
        destruct (IH next (pages_sent + 1)) as [Hall|(Hcat & Hrest & Hcount)];
          [lia | lia | right; lia | |].
        -- left. rewrite Hall. apply slice_to_from.
        -- right. split; [|split; [exact Hrest | lia]].
           rewrite <- app_assoc, Hcat. apply slice_to_from.
  - left. destruct Hstart as [->|Hlt]; [reflexivity|].
    destruct (decide (text = [])) as [->|Hne]; [reflexivity|].
    exfalso. assert (Hc' : truthy (PStr text) && (pages_sent <? max_pages) = true)
      by (apply loop_condition; split; assumption).
    congruence.
Qed.


(** Every page after the first starts with the ellipsis. *)
Lemma choose_page_prefix text pages_sent max_pages :
  pages_sent <> 0 ->
  take 3 (choose_page text pages_sent max_pages).1 = ellipsis.
Proof.
  intros H. unfold choose_page.
  destruct (Z.eqb_spec pages_sent 0) as [|_]; [contradiction|].
  destruct (len text <=? 4096), (pages_sent =? max_pages - 1); reflexivity.
Qed.

Section SendPagesFacts.

Variable bot_respond : list RespondCall -> RespondCall -> Exn + Message.
Variable redact_message : str -> str.

(** The loop sends the pages of its turns in order and stops at the first
    send that raises. *)
Lemma respond_split_loop_send_pages kwargs max_pages fuel :
  forall text pages_sent last_msg w,
    (Z.to_nat (max_pages - pages_sent) <= fuel)%nat ->
    respond_split_loop bot_respond fuel kwargs max_pages text pages_sent last_msg w
    = send_pages bot_respond kwargs
        (map it_page (iterations fuel max_pages text pages_sent)) last_msg w.
Proof.
  induction fuel as [|fuel IH]; intros text pages_sent last_msg w Hfuel;
    cbn [respond_split_loop iterations];
    destruct (truthy (PStr text) && (pages_sent <? max_pages)) eqn:Hc;
    try reflexivity.
  - apply loop_condition in Hc. lia.
  - apply loop_condition in Hc. destruct Hc as [_ Hlt].
    destruct (choose_page text pages_sent max_pages) as [page e].
    cbn [map it_page send_pages]. unfold mbind, M_bind.
    destruct (respond_multi bot_respond [PStr page] kwargs w) as [[m|ex|] w1];
      try reflexivity.
    apply IH. lia.
Qed.

Lemma respond_split_send_pages text max_pages redact kwargs w :
  respond_split bot_respond redact_message text max_pages redact kwargs w
  = send_pages bot_respond kwargs
      (map it_page
         (iterations (Z.to_nat (resolved_max_pages (self w) max_pages))
            (resolved_max_pages (self w) max_pages)
            (resolved_text redact_message (self w) redact text) 0))
      PNone w.
Proof.
  rewrite respond_split_run. apply respond_split_loop_send_pages. lia.
Qed.

End SendPagesFacts.

Section SendFacts.

Variable bot_respond : list RespondCall -> RespondCall -> Exn + Message.

(** Sending one page, in one equation. *)
Lemma respond_multi_page_run page kwargs w :
  respond_multi bot_respond [PStr page] kwargs w =
  if rejected kwargs then (Raise TypeError, w)
  else
    let call := page_call kwargs (self w) page in
    match bot_respond (calls w) call with
    | inl e =>
        (Raise e,
         mkWorld (self w) (next_oid w) (calls w ++ [call]) (tasks w) (deleted w))
    | inr m =>
        (Ok (PMsg m),
         mkWorld (after_page kwargs (self w) m) (next_oid w) (calls w ++ [call])
           (if negb (py_eq (param kwargs "delete_after" (PInt 0)) (PInt 0))
            then tasks w ++ [DeleteTask (param kwargs "delete_after" (PInt 0))]
            else tasks w)
           (deleted w))
    end.
Proof.
  rewrite respond_multi_run, respond_run.
  assert (Ht : chained_kw (self w) kwargs !! "text"%string = kwargs !! "text"%string)
    by (apply chained_other; not_in_names).
  assert (Hi : rest (chained_kw (self w) kwargs) respond_params !! "input_arg"%string
               = kwargs !! "input_arg"%string)
    by (rewrite rest_lookup_ne by not_in_names; apply chained_other; not_in_names).
  assert (Hr : rest (chained_kw (self w) kwargs) respond_params !! "response"%string
               = kwargs !! "response"%string)
    by (rewrite rest_lookup_ne by not_in_names; apply chained_other; not_in_names).
  assert (Hd : param (chained_kw (self w) kwargs) "delete_after" (PInt 0)
               = param kwargs "delete_after" (PInt 0))
    by (unfold param; rewrite chained_other by not_in_names; reflexivity).
  unfold bind_text, rejected. rewrite Ht, Hi, Hr, Hd.
  unfold page_call, after_page.
  destruct (kwargs !! "text"%string), (kwargs !! "input_arg"%string),
    (kwargs !! "response"%string);
    repeat case_bool_decide; try reflexivity; exfalso; is_some_cases.
Qed.

Lemma send_pages_rejected kwargs pages last_msg w :
  rejected kwargs = true ->
  send_pages bot_respond kwargs pages last_msg w
  = match pages with
    | [] => (Ok last_msg, w)
    | _ :: _ => (Raise TypeError, w)
    end.
Proof.
  intros H. destruct pages as [|page pages]; [reflexivity|].
  cbn [send_pages]. unfold mbind, M_bind.
  rewrite respond_multi_page_run, H. reflexivity.
Qed.

Lemma send_pages_step kwargs page pages last_msg w :
  rejected kwargs = false ->
  send_pages bot_respond kwargs (page :: pages) last_msg w =
  let call := page_call kwargs (self w) page in
  match bot_respond (calls w) call with
  | inl e =>
      (Raise e,
       mkWorld (self w) (next_oid w) (calls w ++ [call]) (tasks w) (deleted w))
  | inr m =>
      send_pages bot_respond kwargs pages (PMsg m)
        (mkWorld (after_page kwargs (self w) m) (next_oid w) (calls w ++ [call])
           (if negb (py_eq (param kwargs "delete_after" (PInt 0)) (PInt 0))
            then tasks w ++ [DeleteTask (param kwargs "delete_after" (PInt 0))]
            else tasks w)
           (deleted w))
  end.
Proof.
  intros H. cbn [send_pages]. unfold mbind, M_bind.
  rewrite respond_multi_page_run, H. simpl.
  destruct (bot_respond _ _); reflexivity.
Qed.

Lemma only_response_changed_refl c : only_response_changed c c.
Proof. repeat split. Qed.

Lemma only_response_changed_after_page kwargs c c' m :
  only_response_changed c c' ->
  only_response_changed c (after_page kwargs c' m).
Proof. intros H. exact H. Qed.

(** The calls of a list of pages and the outcome of the run. *)
Lemma send_pages_outcome kwargs :
  rejected kwargs = false ->
  forall pages last_msg w,
    let out := send_pages bot_respond kwargs pages last_msg w in
    exists cs,
      calls out.2 = calls w ++ cs
      /\ map rc_text cs = take (length cs) (map PStr pages)
      /\ out.1 = match replay bot_respond (calls w) cs last_msg with
                 | inr r => Ok r
                 | inl e => Raise e
                 end
      /\ (forall r, out.1 = Ok r -> length cs = length pages)
      /\ (forall cs0 c, cs = cs0 ++ [c] ->
            exists r0, replay bot_respond (calls w) cs0 last_msg = inr r0)
      /\ only_response_changed (self w) (self out.2)
      /\ next_oid out.2 = next_oid w
      /\ deleted out.2 = deleted w.
Proof.
  intros Hrej. induction pages as [|page pages IH]; intros last_msg w.
  - exists []. simpl. rewrite app_nil_r.
    repeat split; try reflexivity.
    intros cs0 c H. destruct cs0; discriminate.
  - cbv zeta. rewrite send_pages_step by exact Hrej. cbv zeta.
    set (call := page_call kwargs (self w) page).
    destruct (bot_respond (calls w) call) as [e|m] eqn:ET.
    + exists [call]. simpl. rewrite ET.
      repeat split; try reflexivity; try discriminate.
      intros cs0 c H. destruct cs0 as [|c0 [|c1 cs0]]; try discriminate.
      exists last_msg. reflexivity.
    + match goal with
      | |- context [send_pages _ _ _ _ ?w1] =>
          destruct (IH (PMsg m) w1)
            as (cs & Hcalls & Htext & Hout & Hlen & Hpre & Hframe & Hoid & Hdel)
      end.
      exists (call :: cs). simpl in Hcalls, Hframe, Hoid, Hdel |- *.
      rewrite ET.
      split; [rewrite Hcalls, <- app_assoc; reflexivity|].
      split; [f_equal; exact Htext|].
      split; [exact Hout|].
      split; [intros r Hr; f_equal; apply (Hlen r Hr)|].
      split.
      { intros cs0 c H. destruct cs0 as [|c0 cs0]; simpl in H.
        - exists last_msg. reflexivity.
        - inversion H; subst. simpl. rewrite ET. apply (Hpre cs0 c eq_refl). }
      split; [exact Hframe|].
      split; [exact Hoid | exact Hdel].
Qed.

End SendFacts.

Section SendFacts2.

Variable bot_respond : list RespondCall -> RespondCall -> Exn + Message.

Lemma replay_snoc history cs c last_msg :
  replay bot_respond history (cs ++ [c]) last_msg =
  match replay bot_respond history cs last_msg with
  | inl e => inl e
  | inr _ =>
      match bot_respond (history ++ cs) c with
      | inr m => inr (PMsg m)
      | inl e => inl e
      end
  end.
Proof.
  revert history last_msg. induction cs as [|c0 cs IH]; intros history last_msg; simpl.
  - rewrite app_nil_r. destruct (bot_respond history c); reflexivity.
  - destruct (bot_respond history c0); [reflexivity|].
    rewrite IH, <- app_assoc. reflexivity.
Qed.

(** The fields of the call made for a page. *)
Lemma page_call_fields kwargs c page :
  let call := page_call kwargs c page in
  rc_text call = PStr page
  /\ rc_input_arg call = ctx_input c
  /\ rc_mode call =
     (if truthy (ctx_response c) && is_none (param kwargs "mode" PNone)
      then PStr (list_ascii_of_string "reply") else param kwargs "mode" PNone)
  /\ rc_target call =
     py_or (if truthy (ctx_response c) && is_none (param kwargs "msg" PNone)
            then ctx_response c else param kwargs "msg" PNone)
           (PMsg (ctx_msg c))
  /\ (truthy (param kwargs "reuse_response" (PBool false)) = false ->
      rc_response call = PNone)
  /\ forall k : string,
       k ∉ respond_params -> rc_kwargs call !! k = kwargs !! k.
Proof.
  unfold page_call, respond_call. cbn [rc_text rc_input_arg rc_mode rc_target
                                        rc_response rc_kwargs].
  rewrite chained_mode, chained_msg, chained_reuse_response.
  repeat split.
  - intros Hr.
    destruct (truthy (ctx_response c)
              && is_none (param kwargs "reuse_response" (PBool false)));
      [reflexivity|]. rewrite Hr. reflexivity.
  - intros k Hk. rewrite rest_lookup_ne by exact Hk.
    apply chained_other. intros Hin. apply Hk.
    unfold respond_params.
    repeat (apply elem_of_cons in Hin as [->|Hin]; [set_solver|]).
    inversion Hin.
Qed.

(** Pages as a chain of replies. *)
Lemma send_pages_chain kwargs :
  rejected kwargs = false ->
  param kwargs "mode" PNone = PNone ->
  param kwargs "msg" PNone = PNone ->
  forall pages last_msg w,
    let out := send_pages bot_respond kwargs pages last_msg w in
    exists cs,
      calls out.2 = calls w ++ cs
      /\ (forall c, cs !! 0%nat = Some c ->
            rc_mode c = (if truthy (ctx_response (self w))
                         then PStr (list_ascii_of_string "reply") else PNone)
            /\ rc_target c = (if truthy (ctx_response (self w))
                              then ctx_response (self w)
                              else PMsg (ctx_msg (self w))))
      /\ (forall (i : nat) c c',
            cs !! i = Some c -> cs !! S i = Some c' ->
            rc_mode c' = PStr (list_ascii_of_string "reply")
            /\ exists m,
                 bot_respond (calls w ++ take i cs) c = inr m
                 /\ rc_target c' = PMsg m).
Proof.
  intros Hrej Hmode Hmsg.
  induction pages as [|page pages IH]; intros last_msg w.
  - exists []. simpl. rewrite app_nil_r.
    split; [reflexivity|]. split; intros; discriminate.
  - cbv zeta. rewrite send_pages_step by exact Hrej. cbv zeta.
    set (call := page_call kwargs (self w) page).
    assert (Hfirst :
              rc_mode call = (if truthy (ctx_response (self w))
                              then PStr (list_ascii_of_string "reply") else PNone)
              /\ rc_target call = (if truthy (ctx_response (self w))
                                   then ctx_response (self w)
                                   else PMsg (ctx_msg (self w)))).
    { destruct (page_call_fields kwargs (self w) page) as (_ & _ & Hm & Ht & _).
      fold call in Hm, Ht. rewrite Hm, Ht, Hmode, Hmsg. unfold py_or.
      destruct (truthy (ctx_response (self w))) eqn:E; simpl;
        [rewrite E|]; split; reflexivity. }
    destruct (bot_respond (calls w) call) as [e|m] eqn:ET.
    + exists [call]. simpl.
      split; [reflexivity|].
      split; [intros c [= <-]; exact Hfirst|].
      intros i c c' _ H. destruct i; discriminate.
    + match goal with
      | |- context [send_pages _ _ _ _ ?w1] =>
          destruct (IH (PMsg m) w1) as (cs & Hcalls & Hhead & Hnext)
      end.
      simpl in Hcalls, Hhead, Hnext.
      exists (call :: cs).
      split; [simpl; rewrite Hcalls, <- app_assoc; reflexivity|].
      split; [intros c [= <-]; exact Hfirst|].
      intros i c c' Hc Hc'. destruct i as [|i]; simpl in Hc, Hc'.
      * inversion Hc; subst c. destruct (Hhead c' Hc') as [Hm Ht].
        split; [exact Hm|]. exists m. simpl. rewrite app_nil_r.
        split; [exact ET | exact Ht].
      * destruct (Hnext i c c' Hc Hc') as (Hm & m' & HT & Ht).
        split; [exact Hm|]. exists m'. simpl.
        rewrite <- app_assoc in HT. split; [exact HT | exact Ht].
Qed.

(** What every call of a list of pages carries. *)
Lemma send_pages_calls kwargs :
  rejected kwargs = false ->
  forall pages last_msg w,
    let out := send_pages bot_respond kwargs pages last_msg w in
    exists cs,
      calls out.2 = calls w ++ cs
      /\ Forall (fun c =>
                   rc_input_arg c = ctx_input (self w)
                   /\ (truthy (param kwargs "reuse_response" (PBool false)) = false ->
                       rc_response c = PNone)
                   /\ forall k : string,
                        k ∉ respond_params -> rc_kwargs c !! k = kwargs !! k) cs.
Proof.
  intros Hrej. induction pages as [|page pages IH]; intros last_msg w.
  - exists []. simpl. rewrite app_nil_r. split; [reflexivity | constructor].
  - cbv zeta. rewrite send_pages_step by exact Hrej. cbv zeta.
    set (call := page_call kwargs (self w) page).
    destruct (page_call_fields kwargs (self w) page) as (_ & Hi & _ & _ & Hr & Hk).
    fold call in Hi, Hr, Hk.
    destruct (bot_respond (calls w) call) as [e|m] eqn:ET.
    + exists [call]. simpl. split; [reflexivity|].
      constructor; [|constructor]. split; [exact Hi | split; [exact Hr | exact Hk]].
    + match goal with
      | |- context [send_pages _ _ _ _ ?w1] =>
          destruct (IH (PMsg m) w1) as (cs & Hcalls & Hall)
      end.
      simpl in Hcalls, Hall. exists (call :: cs).
      split; [simpl; rewrite Hcalls, <- app_assoc; reflexivity|].
      constructor; [split; [exact Hi | split; [exact Hr | exact Hk]] | exact Hall].
Qed.

(** The deletion tasks of a list of pages. *)
Lemma send_pages_tasks kwargs :
  rejected kwargs = false ->
  forall pages last_msg w r w',
    send_pages bot_respond kwargs pages last_msg w = (Ok r, w') ->
    tasks w' =
    tasks w ++ (if py_eq (param kwargs "delete_after" (PInt 0)) (PInt 0)
                then []
                else repeat (DeleteTask (param kwargs "delete_after" (PInt 0)))
                       (length pages))
    /\ (pages = [] -> r = last_msg /\ self w' = self w)
    /\ (pages <> [] -> ctx_response (self w') = r /\ exists m, r = PMsg m).
Proof.
  intros Hrej. induction pages as [|page pages IH]; intros last_msg w r w' H.
  - simpl in H. inversion H; subst.
    split; [destruct (py_eq _ _); simpl; rewrite app_nil_r; reflexivity|].
    split; [intros _; split; reflexivity | congruence].
  - rewrite send_pages_step in H by exact Hrej. cbv zeta in H.
    destruct (bot_respond (calls w) (page_call kwargs (self w) page)) as [e|m];
      [discriminate|].
    apply IH in H. destruct H as (Ht & Hnil & Hcons). simpl in Ht.
    split.
    + rewrite Ht. destruct (py_eq (param kwargs "delete_after" (PInt 0)) (PInt 0));
        simpl; [reflexivity|].
      rewrite <- app_assoc. reflexivity.
    + split; [congruence|]. intros _.
      destruct pages as [|p ps].
      * destruct (Hnil eq_refl) as [-> ->]. simpl. split; [reflexivity|eauto].
      * apply Hcons. discriminate.
Qed.

Lemma run_pending_repeat d (n : nat) w m :
  ctx_response (self w) = PMsg m ->
  tasks w = repeat (DeleteTask d) n ->
  deleted (run_pending w) = deleted w ++ repeat m n.
Proof.
  intros Hr Ht. unfold run_pending. rewrite Ht.
  assert (G : forall (k : nat) w0,
             ctx_response (self w0) = PMsg m ->
             deleted (foldl (fun w t => run_task t w) w0 (repeat (DeleteTask d) k))
             = deleted w0 ++ repeat m k).
  { induction k as [|k IH]; intros w0 H0; simpl.
    - rewrite app_nil_r. reflexivity.
    - rewrite H0. rewrite IH by exact H0. simpl.
      rewrite <- app_assoc. reflexivity. }
  apply (G n (mkWorld (self w) (next_oid w) (calls w) [] (deleted w))).
  exact Hr.
Qed.

End SendFacts2.

(** ** [respond_split]: edges, counts and losses *)

Section SplitMore.

Variable bot_respond : list RespondCall -> RespondCall -> Exn + Message.
Variable redact_message : str -> str.

(** X7.  Nothing to send: for an empty (redacted) text or a page limit of zero
    or less, [respond_split] returns [None] and calls nothing. *)
Theorem respond_split_nothing_to_send text max_pages redact kwargs w :
  resolved_text redact_message (self w) redact text = []
  \/ resolved_max_pages (self w) max_pages <= 0 ->
  respond_split bot_respond redact_message text max_pages redact kwargs w
  = (Ok PNone, w).
Proof.
  intros H. rewrite respond_split_send_pages.
  rewrite iterations_nil by exact H. reflexivity.
Qed.

(** X8.  [respond_split] never makes more than [max_pages] calls. *)
Theorem respond_split_page_count text max_pages redact kwargs w :
  let out := respond_split bot_respond redact_message text max_pages redact kwargs w in
  exists cs,
    calls out.2 = calls w ++ cs
    /\ Z.of_nat (length cs) <= Z.max 0 (resolved_max_pages (self w) max_pages).
Proof.
  cbv zeta. rewrite respond_split_run.
  destruct (respond_split_loop_sent bot_respond kwargs
              (resolved_max_pages (self w) max_pages)
              (Z.to_nat (resolved_max_pages (self w) max_pages))
              (resolved_text redact_message (self w) redact text) 0 PNone w)
    as (cs & Hcalls & _ & Hlen & _); [lia|].
  exists cs. split; [exact Hcalls|].
  pose proof (iterations_length (resolved_max_pages (self w) max_pages)
                (Z.to_nat (resolved_max_pages (self w) max_pages))
                (resolved_text redact_message (self w) redact text) 0).
  lia.
Qed.

Lemma iterations_one text :
  text <> [] ->
  map it_page (iterations 1 1 text 0) = [text].
Proof.
  intros Hne. cbn [iterations].
  assert (Hc : truthy (PStr text) && (0 <? 1) = true)
    by (apply loop_condition; split; [exact Hne | lia]).
  rewrite Hc.
  assert (Hp : (choose_page text 0 1).1 = text).
  { unfold choose_page.
    destruct (Z.leb_spec (len text) 4096) as [Hl|Hl]; simpl; [|reflexivity].
    apply slice_to_all. unfold MESSAGE_CHAR_LIMIT. lia. }
  destruct (choose_page text 0 1) as [page e]. simpl in Hp. subst page.
  cbn [map it_page]. rewrite andb_false_r. reflexivity.
Qed.

(** A text within the limit is one turn of the loop, whatever the page
    limit from 1 on. *)
Lemma iterations_short text max_pages :
  text <> [] -> len text <= MESSAGE_CHAR_LIMIT -> 1 <= max_pages ->
  map it_page (iterations (Z.to_nat max_pages) max_pages text 0) = [text].
Proof.
  intros Hne Hlen Hmp.
  destruct (Z.to_nat max_pages) as [|fuel] eqn:Ef; [lia|].
  cbn [iterations].
  assert (Hc : truthy (PStr text) && (0 <? max_pages) = true)
    by (apply loop_condition; split; [exact Hne | lia]).
  rewrite Hc.
  assert (Hp : choose_page text 0 max_pages = (text, 0)).
  { unfold choose_page.
    destruct (Z.leb_spec (len text) 4096) as [_|Hl];
      [|unfold MESSAGE_CHAR_LIMIT in Hlen; lia].
    simpl. rewrite slice_to_all by exact Hlen. reflexivity. }
  rewrite Hp. cbn [map it_page].
  rewrite iterations_nil; [reflexivity|].
  left. apply slice_from_all. unfold MESSAGE_CHAR_LIMIT in *. lia.
Qed.

(** C5, amended.  For the empty text (after redaction, if redaction is
    on) [respond_split] sends no page and returns [None].  For every text
    that is then not empty and no longer than the limit, and every page
    limit of at least 1: when the keywords collide ([text], [input_arg] or
    [response] among them) the call raises [TypeError] before any send;
    otherwise [respond_split] makes exactly one call to the transport,
    whose text is the (redacted) text itself, without ellipsis, and the
    result is the message the transport returns for it (or the error it
    raises). *)
Theorem respond_split_single_page text max_pages redact kwargs w :
  let text' := resolved_text redact_message (self w) redact text in
  let out := respond_split bot_respond redact_message text max_pages redact kwargs w in
  (text' = [] -> out = (Ok PNone, w))
  /\ (text' <> [] ->
      len text' <= MESSAGE_CHAR_LIMIT ->
      1 <= resolved_max_pages (self w) max_pages ->
      if rejected kwargs then out = (Raise TypeError, w)
      else
        let call := page_call kwargs (self w) text' in
        calls out.2 = calls w ++ [call]
        /\ rc_text call = PStr text'
        /\ match bot_respond (calls w) call with
           | inr m => out.1 = Ok (PMsg m)
           | inl e => out.1 = Raise e
           end).
Proof.
  intros text' out. subst out. rewrite respond_split_send_pages. fold text'.
  split.
  - intros Hnil. rewrite iterations_nil by (left; exact Hnil). reflexivity.
  - intros Hne Hlen Hmp.
    rewrite iterations_short by assumption.
    destruct (rejected kwargs) eqn:Hrej.
    + rewrite send_pages_rejected by exact Hrej. reflexivity.
    + rewrite send_pages_step by exact Hrej. cbv zeta.
      destruct (bot_respond (calls w) (page_call kwargs (self w) text'));
        simpl; repeat split.
Qed.

(** X9.  With a page limit of 1 the whole text goes out as one page,
    unsplit and without ellipsis, whatever its length: unless the keywords
    collide, in which case the call raises [TypeError] before any send,
    there is exactly one call to the transport, whose text is the
    (redacted) text, and the result is the message returned for it (or the
    error raised). *)
Theorem respond_split_one_page_limit text max_pages redact kwargs w :
  let text' := resolved_text redact_message (self w) redact text in
  let out := respond_split bot_respond redact_message text max_pages redact kwargs w in
  resolved_max_pages (self w) max_pages = 1 ->
  text' <> [] ->
  if rejected kwargs then out = (Raise TypeError, w)
  else
    let call := page_call kwargs (self w) text' in
    calls out.2 = calls w ++ [call]
    /\ rc_text call = PStr text'
    /\ match bot_respond (calls w) call with
       | inr m => out.1 = Ok (PMsg m)
       | inl e => out.1 = Raise e
       end.
Proof.
  intros text' out Hmp Hne. subst out. rewrite respond_split_send_pages.
  rewrite Hmp. change (Z.to_nat 1) with 1%nat. fold text'.
  rewrite iterations_one by exact Hne.
  destruct (rejected kwargs) eqn:Hrej.
  - rewrite send_pages_rejected by exact Hrej. reflexivity.
  - rewrite send_pages_step by exact Hrej. cbv zeta.
    destruct (bot_respond (calls w) (page_call kwargs (self w) text'));
      simpl; repeat split.
Qed.



End SplitMore.

Section SplitMore2.

Variable bot_respond : list RespondCall -> RespondCall -> Exn + Message.
Variable redact_message : str -> str.

(** The texts of the calls of a run that returns are the pages of its
    turns. *)
Lemma respond_split_ok_pages text max_pages redact kwargs w r w' :
  let mp := resolved_max_pages (self w) max_pages in
  let text' := resolved_text redact_message (self w) redact text in
  let its := iterations (Z.to_nat mp) mp text' 0 in
  respond_split bot_respond redact_message text max_pages redact kwargs w
  = (Ok r, w') ->
  exists cs,
    calls w' = calls w ++ cs
    /\ Forall2 (fun c it => rc_text c = PStr (it_page it)) cs its.
Proof.
  intros mp text' its Hrun. rewrite respond_split_run in Hrun.
  fold mp text' in Hrun.
  destruct (respond_split_loop_sent bot_respond kwargs mp (Z.to_nat mp) text' 0
              PNone w) as (cs & Hcalls & Hf2 & _ & _ & Hok); [lia|].
  rewrite Hrun in Hcalls, Hok. simpl in Hcalls, Hok.
  specialize (Hok r eq_refl). fold its in Hf2, Hok.
  rewrite Hok, take_ge in Hf2 by lia.
  exists cs. split; [exact Hcalls|].
  eapply Forall2_impl; [exact Hf2 | intros c it [H _]; exact H].
Qed.

(** X10.  A run that returns has handed the whole text to the transport, or all
    of it but its last one to three characters; the latter needs at least
    two pages. *)
Theorem respond_split_loss_bound text max_pages redact kwargs w r w' :
  let mp := resolved_max_pages (self w) max_pages in
  let text' := resolved_text redact_message (self w) redact text in
  let its := iterations (Z.to_nat mp) mp text' 0 in
  let unsent := remaining (Z.to_nat mp) mp text' 0 in
  respond_split bot_respond redact_message text max_pages redact kwargs w
  = (Ok r, w') ->
  1 <= mp ->
  exists cs,
    calls w' = calls w ++ cs
    /\ Forall2 (fun c it => rc_text c = PStr (it_page it)) cs its
    /\ (concat (map (real_content mp) its) = text'
        \/ (concat (map (real_content mp) its) ++ unsent = text'
            /\ 1 <= len unsent <= 3
            /\ (2 <= length cs)%nat)).
Proof.
  intros mp text' its unsent Hrun Hmp.
  destruct (respond_split_ok_pages text max_pages redact kwargs w r w' Hrun)
    as (cs & Hcalls & Hf2).
  fold mp text' its in Hf2.
  exists cs. split; [exact Hcalls|]. split; [exact Hf2|].
  destruct (iterations_loss mp (Z.to_nat mp) text' 0) as [Hall|(Hcat & Hrest & Hn)];
    [lia | lia | right; lia | left; exact Hall |].
  right. split; [exact Hcat|]. split; [exact Hrest|].
  apply Forall2_length in Hf2. fold its in Hn. lia.
Qed.


(** X12.  Every page after the first starts with ["..."]. *)
Theorem respond_split_later_pages_prefixed text max_pages redact kwargs w :
  let out := respond_split bot_respond redact_message text max_pages redact kwargs w in
  exists cs,
    calls out.2 = calls w ++ cs
    /\ forall (i : nat) c,
         cs !! i = Some c -> i <> 0%nat ->
         exists page, rc_text c = PStr page /\ take 3 page = ellipsis.
Proof.
  cbv zeta. rewrite respond_split_run.
  set (mp := resolved_max_pages (self w) max_pages).
  set (text' := resolved_text redact_message (self w) redact text).
  destruct (respond_split_loop_sent bot_respond kwargs mp (Z.to_nat mp) text' 0
              PNone w) as (cs & Hcalls & Hf2 & _); [lia|].
  exists cs. split; [exact Hcalls|].
  intros i c Hi Hne.
  destruct (Forall2_lookup_l _ _ _ _ _ Hf2 Hi) as (it & Hit & Htext & _).
  apply lookup_take_Some in Hit. destruct Hit as [Hit _].
  pose proof (iterations_count mp (Z.to_nat mp) text' 0 i it Hit) as Hcount.
  pose proof (iterations_turns mp (Z.to_nat mp) text' 0 (Z.le_refl 0)) as Hturns.
  rewrite Forall_forall in Hturns.
  destruct (Hturns it) as (_ & _ & Hchoose);
    [apply list_elem_of_lookup; exists i; exact Hit|].
  exists (it_page it). split; [exact Htext|].
  replace (it_page it) with (choose_page (it_text it) (it_pages_sent it) mp).1
    by (rewrite Hchoose; reflexivity).
  apply choose_page_prefix. lia.
Qed.

(** X14.  The pages form a chain of replies: without [mode] and [msg] among the
    keywords, the first page goes to the previous response as a reply when
    the context has one and to the triggering message otherwise, and every
    later page is a reply to the message the transport returned for the
    page before it. *)
Theorem respond_split_reply_chain text max_pages redact kwargs w :
  let out := respond_split bot_respond redact_message text max_pages redact kwargs w in
  let reply := PStr (list_ascii_of_string "reply") in
  param kwargs "mode" PNone = PNone ->
  param kwargs "msg" PNone = PNone ->
  exists cs,
    calls out.2 = calls w ++ cs
    /\ (forall c, cs !! 0%nat = Some c ->
          rc_mode c = (if truthy (ctx_response (self w)) then reply else PNone)
          /\ rc_target c = (if truthy (ctx_response (self w))
                            then ctx_response (self w)
                            else PMsg (ctx_msg (self w))))
    /\ (forall (i : nat) c c',
          cs !! i = Some c -> cs !! S i = Some c' ->
          rc_mode c' = reply
          /\ exists m,
               bot_respond (calls w ++ take i cs) c = inr m
               /\ rc_target c' = PMsg m).
Proof.
  intros out reply Hmode Hmsg. subst out. rewrite respond_split_send_pages.
  destruct (rejected kwargs) eqn:Hrej.
  - exists []. rewrite send_pages_rejected by exact Hrej.
    split; [destruct (map it_page _); simpl; rewrite app_nil_r; reflexivity|].
    split; intros; discriminate.
  - apply send_pages_chain; assumption.
Qed.

(** X15.  Every call of [respond_split] carries the input of the context and
    the caller's other keywords as given; and unless [reuse_response] is
    passed and true, no call names a message to edit. *)
Theorem respond_split_call_fields text max_pages redact kwargs w :
  let out := respond_split bot_respond redact_message text max_pages redact kwargs w in
  exists cs,
    calls out.2 = calls w ++ cs
    /\ Forall (fun c =>
                 rc_input_arg c = ctx_input (self w)
                 /\ (truthy (param kwargs "reuse_response" (PBool false)) = false ->
                     rc_response c = PNone)
                 /\ forall k : string,
                      k ∉ respond_params -> rc_kwargs c !! k = kwargs !! k) cs.
Proof.
  cbv zeta. rewrite respond_split_send_pages.
  destruct (rejected kwargs) eqn:Hrej.
  - exists []. rewrite send_pages_rejected by exact Hrej.
    split; [destruct (map it_page _); simpl; rewrite app_nil_r; reflexivity|].
    constructor.
  - apply send_pages_calls. exact Hrej.
Qed.

(** X16.  The outcome of a run.  Keywords that collide make the first page fail
    with [TypeError] before any call.  Otherwise the calls are the pages in
    order up to the first one the transport refuses; the result is the
    message returned for the last page ([None] when there is no page) or
    the error of the refused page, which is then the last call made. *)
Theorem respond_split_outcome text max_pages redact kwargs w :
  let mp := resolved_max_pages (self w) max_pages in
  let text' := resolved_text redact_message (self w) redact text in
  let pages := map it_page (iterations (Z.to_nat mp) mp text' 0) in
  let out := respond_split bot_respond redact_message text max_pages redact kwargs w in
  if rejected kwargs then
    out = match pages with
          | [] => (Ok PNone, w)
          | _ :: _ => (Raise TypeError, w)
          end
  else
    exists cs,
      calls out.2 = calls w ++ cs
      /\ map rc_text cs = take (length cs) (map PStr pages)
      /\ out.1 = match replay bot_respond (calls w) cs PNone with
                 | inr r => Ok r
                 | inl e => Raise e
                 end
      /\ (forall r, out.1 = Ok r -> length cs = length pages)
      /\ (forall e, out.1 = Raise e ->
            exists cs0 c r0,
              cs = cs0 ++ [c]
              /\ replay bot_respond (calls w) cs0 PNone = inr r0
              /\ bot_respond (calls w ++ cs0) c = inl e).
Proof.
  intros mp text' pages out. subst out. rewrite respond_split_send_pages.
  fold mp text' pages.
  destruct (rejected kwargs) eqn:Hrej.
  - apply send_pages_rejected. exact Hrej.
  - destruct (send_pages_outcome bot_respond kwargs Hrej pages PNone w)
      as (cs & Hcalls & Htext & Hout & Hlen & Hpre & _).
    exists cs. split; [exact Hcalls|]. split; [exact Htext|].
    split; [exact Hout|]. split; [exact Hlen|].
    intros e He. rewrite Hout in He.
    destruct cs as [|c cs _] using rev_ind; [discriminate|].
    destruct (Hpre cs c eq_refl) as [r0 Hr0].
    exists cs, c, r0. split; [reflexivity|]. split; [exact Hr0|].
    rewrite replay_snoc, Hr0 in He.
    destruct (bot_respond (calls w ++ cs) c); congruence.
Qed.

(** X18.  The response methods change nothing of the context but [response] and
    [response_mode]; they allocate nothing and delete nothing. *)
Theorem respond_split_only_response_changes text max_pages redact kwargs w :
  let out := respond_split bot_respond redact_message text max_pages redact kwargs w in
  only_response_changed (self w) (self out.2)
  /\ next_oid out.2 = next_oid w
  /\ deleted out.2 = deleted w.
Proof.
  cbv zeta. rewrite respond_split_send_pages.
  destruct (rejected kwargs) eqn:Hrej.
  - rewrite send_pages_rejected by exact Hrej.
    destruct (map it_page _); simpl; repeat split.
  - match goal with
    | |- context [send_pages _ _ ?pages _ _] =>
        destruct (send_pages_outcome bot_respond kwargs Hrej pages PNone w)
          as (cs & _ & _ & _ & _ & _ & Hframe & Hoid & Hdel)
    end.
    split; [exact Hframe | split; [exact Hoid | exact Hdel]].
Qed.

(** X19.  [delete_after] on a split: every page schedules a task, and when the
    tasks run each of them deletes the last page; the earlier pages stay. *)
Theorem respond_split_delete_after text max_pages redact kwargs w r w' :
  let mp := resolved_max_pages (self w) max_pages in
  let text' := resolved_text redact_message (self w) redact text in
  let n := length (iterations (Z.to_nat mp) mp text' 0) in
  let d := param kwargs "delete_after" (PInt 0) in
  respond_split bot_respond redact_message text max_pages redact kwargs w
  = (Ok r, w') ->
  py_eq d (PInt 0) = false ->
  tasks w = [] ->
  (1 <= n)%nat ->
  exists last_page,
    r = PMsg last_page
    /\ tasks w' = repeat (DeleteTask d) n
    /\ deleted (run_pending w') = deleted w ++ repeat last_page n.
Proof.
  intros mp text' n d Hrun Hd Ht Hn.
  rewrite respond_split_send_pages in Hrun. fold mp text' in Hrun.
  destruct (rejected kwargs) eqn:Hrej.
  - rewrite send_pages_rejected in Hrun by exact Hrej.
    subst n. destruct (iterations (Z.to_nat mp) mp text' 0); simpl in *;
      [lia | discriminate].
  - pose proof (send_pages_outcome bot_respond kwargs Hrej
                  (map it_page (iterations (Z.to_nat mp) mp text' 0)) PNone w)
      as (cs & _ & _ & _ & _ & _ & _ & _ & Hdel).
    rewrite Hrun in Hdel. simpl in Hdel.
    apply send_pages_tasks in Hrun; [|exact Hrej].
    destruct Hrun as (Htasks & _ & Hlast).
    fold d in Htasks. rewrite Hd, Ht, length_map in Htasks. simpl in Htasks.
    fold n in Htasks.
    destruct Hlast as (Hresp & m & ->).
    { subst n. destruct (iterations (Z.to_nat mp) mp text' 0); simpl in *;
        [lia | discriminate]. }
    exists m. split; [reflexivity|]. split; [exact Htasks|].
    rewrite <- Hdel. apply (run_pending_repeat d); assumption.
Qed.

End SplitMore2.

(** ** The context, again *)

(** X4.  A context and its arguments: the invoker followed by [args] is the
    segment sequence the context was built from. *)
Theorem Context_invoker_and_args bot msg segments cmd_len matches c
    (oids : nat) (cs : list RespondCall) (ts : list Task) (ds : list Message) :
  Context_init bot msg segments cmd_len matches = Ok c ->
  exists a w1,
    args (mkWorld c oids cs ts ds) = (Ok a, w1)
    /\ ctx_invoker c :: items a = items segments.
Proof.
  unfold Context_init.
  destruct (items segments) as [|first others] eqn:E; simpl; [discriminate|].
  destruct (m_text msg); [|discriminate].
  intros [= <-]. eexists. eexists.
  split; [reflexivity|]. simpl. rewrite E. reflexivity.
Qed.

Lemma Context_invoker_and_args_witness :
  exists a w1,
    args sample_world = (Ok a, w1)
    /\ ctx_invoker sample_context :: items a = items sample_segments.
Proof.
  apply (Context_invoker_and_args (mkBot (mkConfig false 3)) sample_msg
           sample_segments 4 [] sample_context 1 [] [] []).
  reflexivity.
Defined.

(** X5.  The input of a context is what the slice [msg.text[cmd_len:]] keeps,
    for every integer [cmd_len]: together with [msg.text[:cmd_len]] it is
    the text; a negative [cmd_len] keeps that many characters from the
    end, one beyond the end keeps nothing. *)
Theorem Context_input_slice bot msg segments cmd_len matches c :
  Context_init bot msg segments cmd_len matches = Ok c ->
  exists text,
    m_text msg = Some text
    /\ slice_to cmd_len text ++ ctx_input c = text
    /\ len (ctx_input c) =
       (if cmd_len <? 0 then Z.min (- cmd_len) (len text)
        else Z.max 0 (len text - cmd_len)).
Proof.
  unfold Context_init.
  destruct (items segments !! 0%nat); [|discriminate].
  destruct (m_text msg) as [text|]; [|discriminate].
  intros [= <-]. exists text. simpl.
  split; [reflexivity|]. split; [apply slice_to_from|].
  unfold slice_from, slice_bound, len. rewrite length_drop.
  destruct (Z.ltb_spec cmd_len 0); lia.
Qed.

Lemma Context_input_slice_witness :
  exists c,
    Context_init (mkBot (mkConfig false 3)) sample_msg sample_segments (-3) [] = Ok c
    /\ exists text,
         m_text sample_msg = Some text
         /\ slice_to (-3) text ++ ctx_input c = text
         /\ len (ctx_input c) =
            (if -3 <? 0 then Z.min (- -3) (len text)
             else Z.max 0 (len text - -3)).
Proof.
  eexists. split; [reflexivity|].
  apply (Context_input_slice (mkBot (mkConfig false 3)) sample_msg sample_segments
           (-3) []).
  reflexivity.
Defined.

(** ** [respond], again *)

Section RespondMore.

Variable bot_respond : list RespondCall -> RespondCall -> Exn + Message.

(** X6.  One call of [respond] makes at most one call to the transport,
    changes nothing of the context but [response] and [response_mode],
    deletes nothing, and schedules one deletion task exactly when the send
    succeeds and [delete_after] is not 0; a failed send schedules
    nothing. *)
Theorem respond_effects pos kw w :
  let out := respond bot_respond pos kw w in
  let d := param kw "delete_after" (PInt 0) in
  only_response_changed (self w) (self out.2)
  /\ next_oid out.2 = next_oid w
  /\ deleted out.2 = deleted w
  /\ (exists cs, calls out.2 = calls w ++ cs /\ (length cs <= 1)%nat)
  /\ tasks out.2 =
     tasks w ++ match out.1 with
                | Ok _ => if py_eq d (PInt 0) then [] else [DeleteTask d]
                | _ => []
                end.
Proof.
  cbv zeta.
  destruct (respond_cases bot_respond pos kw w) as [E|(text & _ & Hrun)].
  - rewrite E. simpl. rewrite app_nil_r.
    repeat split. exists []. rewrite app_nil_r. split; [reflexivity | simpl; lia].
  - simpl in Hrun.
    destruct (bot_respond (calls w) (respond_call (self w) text kw));
      rewrite Hrun; simpl.
    + rewrite app_nil_r. repeat split. eexists. split; [reflexivity | simpl; lia].
    + repeat split.
      * eexists. split; [reflexivity | simpl; lia].
      * destruct (py_eq (param kw "delete_after" (PInt 0)) (PInt 0)); simpl;
          [rewrite app_nil_r|]; reflexivity.
Qed.

End RespondMore.

(** A page that is followed by more is full: exactly 4096 characters, the
    last three of them the ellipsis. *)
Lemma choose_page_full text pages_sent max_pages :
  len text > 4096 -> pages_sent <> max_pages - 1 ->
  len (choose_page text pages_sent max_pages).1 = MESSAGE_CHAR_LIMIT
  /\ drop (Z.to_nat (MESSAGE_CHAR_LIMIT - 3)) (choose_page text pages_sent max_pages).1
     = ellipsis.
Proof.
  intros Hlen Hf. unfold choose_page.
  destruct (Z.leb_spec (len text) 4096) as [Hl|_]; [lia|].
  destruct (Z.eqb_spec pages_sent (max_pages - 1)) as [|_]; [contradiction|].
  destruct (pages_sent =? 0); cbn [fst].
  - split.
    + rewrite len_app, len_ellipsis, len_slice_to by (unfold MESSAGE_CHAR_LIMIT; lia).
      unfold MESSAGE_CHAR_LIMIT. lia.
    + apply drop_app_length'.
      rewrite slice_to_nonneg by (unfold MESSAGE_CHAR_LIMIT; lia).
      rewrite length_take. unfold len, MESSAGE_CHAR_LIMIT in *. lia.
  - split.
    + rewrite !len_app, len_ellipsis, len_slice_to by (unfold MESSAGE_CHAR_LIMIT; lia).
      unfold MESSAGE_CHAR_LIMIT. lia.
    + rewrite app_assoc. apply drop_app_length'.
      rewrite length_app, slice_to_nonneg by (unfold MESSAGE_CHAR_LIMIT; lia).
      rewrite length_take. change (length ellipsis) with 3%nat.
      unfold len, MESSAGE_CHAR_LIMIT in *. lia.
Qed.

Section SplitMore3.

Variable bot_respond : list RespondCall -> RespondCall -> Exn + Message.
Variable redact_message : str -> str.

(** X13.  Pages that are followed by more text use the whole limit: when more
    than 4096 characters are left and the page is not the last allowed
    one, the page is exactly [MESSAGE_CHAR_LIMIT] characters long and ends
    with ["..."]. *)
Theorem respond_split_full_pages text max_pages redact kwargs w :
  let mp := resolved_max_pages (self w) max_pages in
  let text' := resolved_text redact_message (self w) redact text in
  let out := respond_split bot_respond redact_message text max_pages redact kwargs w in
  let its := iterations (Z.to_nat mp) mp text' 0 in
  exists cs,
    calls out.2 = calls w ++ cs
    /\ forall (i : nat) c,
         cs !! i = Some c ->
         exists it,
           its !! i = Some it
           /\ rc_text c = PStr (it_page it)
           /\ (len (it_text it) > MESSAGE_CHAR_LIMIT -> Z.of_nat i <> mp - 1 ->
               len (it_page it) = MESSAGE_CHAR_LIMIT
               /\ drop (Z.to_nat (MESSAGE_CHAR_LIMIT - 3)) (it_page it) = ellipsis).
Proof.
  intros mp text' out its. subst out. rewrite respond_split_run.
  fold mp text'.
  destruct (respond_split_loop_sent bot_respond kwargs mp (Z.to_nat mp) text' 0
              PNone w) as (cs & Hcalls & Hf2 & _); [lia|].
  exists cs. split; [exact Hcalls|].
  intros i c Hi.
  destruct (Forall2_lookup_l _ _ _ _ _ Hf2 Hi) as (it & Hit & Htext & _).
  apply lookup_take_Some in Hit. destruct Hit as [Hit _]. fold its in Hit.
  pose proof (iterations_count mp (Z.to_nat mp) text' 0 i it Hit) as Hcount.
  pose proof (iterations_turns mp (Z.to_nat mp) text' 0 (Z.le_refl 0)) as Hturns.
  rewrite Forall_forall in Hturns.
  destruct (Hturns it) as (_ & _ & Hchoose);
    [apply list_elem_of_lookup; exists i; exact Hit|].
  exists it. split; [exact Hit|]. split; [exact Htext|].
  intros Hbig Hnot.
  replace (it_page it) with (choose_page (it_text it) (it_pages_sent it) mp).1
    by (rewrite Hchoose; reflexivity).
  apply choose_page_full; [unfold MESSAGE_CHAR_LIMIT in Hbig|]; lia.
Qed.

End SplitMore3.

Section SplitMore4.

Variable bot_respond : list RespondCall -> RespondCall -> Exn + Message.
Variable redact_message : str -> str.

(** X17.  The result of a run that returns: [None] and an untouched world when
    there was no page to send; otherwise a message, which is also the
    response the context then holds. *)
Theorem respond_split_result text max_pages redact kwargs w r w' :
  let mp := resolved_max_pages (self w) max_pages in
  let text' := resolved_text redact_message (self w) redact text in
  respond_split bot_respond redact_message text max_pages redact kwargs w
  = (Ok r, w') ->
  (text' = [] \/ mp <= 0 -> r = PNone /\ w' = w)
  /\ (text' <> [] -> 1 <= mp ->
      ctx_response (self w') = r /\ exists m, r = PMsg m).
Proof.
  intros mp text' Hrun. split.
  - intros H.
    rewrite respond_split_send_pages in Hrun. fold mp text' in Hrun.
    rewrite iterations_nil in Hrun by exact H.
    inversion Hrun; subst. split; reflexivity.
  - intros Hne Hmp.
    rewrite respond_split_send_pages in Hrun. fold mp text' in Hrun.
    assert (Hits : map it_page (iterations (Z.to_nat mp) mp text' 0) <> []).
    { destruct (Z.to_nat mp) as [|fuel] eqn:Ef; [lia|].
      cbn [iterations].
      assert (Hc : truthy (PStr text') && (0 <? mp) = true)
        by (apply loop_condition; split; [exact Hne | lia]).
      rewrite Hc. destruct (choose_page text' 0 mp). discriminate. }
    destruct (rejected kwargs) eqn:Hrej.
    + rewrite send_pages_rejected in Hrun by exact Hrej.
      destruct (map it_page (iterations (Z.to_nat mp) mp text' 0));
        [congruence | discriminate].
    + apply send_pages_tasks in Hrun; [|exact Hrej].
      destruct Hrun as (_ & _ & Hlast). apply Hlast. exact Hits.
Qed.

End SplitMore4.

(** ** More runs on sample inputs *)

Lemma respond_split_nothing_to_send_witness :
  respond_split numbering_transport (fun s => s) (filler 10) (Some 0) None
    ∅ sample_world = (Ok PNone, sample_world).
Proof.
  apply (respond_split_nothing_to_send numbering_transport (fun s => s)
           (filler 10) (Some 0) None ∅ sample_world).
  right. simpl. lia.
Defined.

(** A short text on the sample context: no keyword collides, one call is
    made with the text itself and the run returns the message sent. *)
Lemma respond_split_single_page_witness :
  let hello := list_ascii_of_string "hello" in
  let out := respond_split numbering_transport (fun s => s) hello (Some 1)
               (Some false) ∅ sample_world in
  let call := page_call ∅ (self sample_world) hello in
  rejected ∅ = false
  /\ calls out.2 = calls sample_world ++ [call]
  /\ rc_text call = PStr hello
  /\ out.1 = Ok (PMsg (mkMessage 100 7 None (Some hello))).
Proof.
  intros hello out call.
  destruct (respond_split_single_page numbering_transport (fun s => s) hello
              (Some 1) (Some false) ∅ sample_world) as [_ H].
  specialize (H ltac:(discriminate) ltac:(vm_compute; discriminate)
                ltac:(simpl; lia)).
  assert (R : rejected ∅ = false) by reflexivity.
  rewrite R in H. cbv zeta in H. destruct H as (Hcalls & Htext & Hout).
  split; [exact R|]. split; [exact Hcalls|]. split; [exact Htext|].
  exact Hout.
Defined.

(** A text longer than the limit under a page limit of 1. *)
Lemma respond_split_one_page_limit_witness :
  let text := filler 4100 in
  let out := respond_split numbering_transport (fun s => s) text (Some 1)
               (Some false) ∅ sample_world in
  let call := page_call ∅ (self sample_world) text in
  rejected ∅ = false
  /\ calls out.2 = calls sample_world ++ [call]
  /\ rc_text call = PStr text
  /\ out.1 = Ok (PMsg (mkMessage 100 7 None (Some text))).
Proof.
  intros text out call.
  pose proof (respond_split_one_page_limit numbering_transport (fun s => s) text
                (Some 1) (Some false) ∅ sample_world eq_refl
                ltac:(vm_compute; discriminate)) as H.
  assert (R : rejected ∅ = false) by reflexivity.
  rewrite R in H. cbv zeta in H. destruct H as (Hcalls & Htext & Hout).
  split; [exact R|]. split; [exact Hcalls|]. split; [exact Htext|].
  exact Hout.
Defined.



(** A text of 4093 + 4095 characters under a page limit of 2: the second
    page holds 4093 characters and the last two are not sent. *)
Lemma respond_split_loss_bound_witness :
  let text := filler 8188 in
  let its := iterations 2 2 text 0 in
  let unsent := remaining 2 2 text 0 in
  exists r w' cs,
    respond_split numbering_transport (fun s => s) text (Some 2) (Some false)
      ∅ sample_world = (Ok r, w')
    /\ len unsent = 2
    /\ calls w' = calls sample_world ++ cs
    /\ Forall2 (fun c it => rc_text c = PStr (it_page it)) cs its
    /\ (concat (map (real_content 2) its) = text
        \/ (concat (map (real_content 2) its) ++ unsent = text
            /\ 1 <= len unsent <= 3
            /\ (2 <= length cs)%nat)).
Proof.
  intros text its unsent.
  assert (E : exists r w',
             respond_split numbering_transport (fun s => s) text (Some 2)
               (Some false) ∅ sample_world = (Ok r, w'))
    by (eexists; eexists; vm_compute; reflexivity).
  destruct E as (r & w' & E).
  destruct (respond_split_loss_bound numbering_transport (fun s => s) text
              (Some 2) (Some false) ∅ sample_world r w' E)
    as (cs & H); [simpl; lia|].
  exists r, w', cs.
  split; [exact E|]. split; [vm_compute; reflexivity | exact H].
Defined.


Lemma respond_split_reply_chain_witness :
  let out := respond_split numbering_transport (fun s => s) (filler 8192) (Some 5)
               (Some false) ∅ sample_world in
  let reply := PStr (list_ascii_of_string "reply") in
  exists cs,
    calls out.2 = calls sample_world ++ cs
    /\ (forall c, cs !! 0%nat = Some c ->
          rc_mode c = (if truthy (ctx_response (self sample_world)) then reply else PNone)
          /\ rc_target c = (if truthy (ctx_response (self sample_world))
                            then ctx_response (self sample_world)
                            else PMsg (ctx_msg (self sample_world))))
    /\ (forall (i : nat) c c',
          cs !! i = Some c -> cs !! S i = Some c' ->
          rc_mode c' = reply
          /\ exists m,
               numbering_transport (calls sample_world ++ take i cs) c = inr m
               /\ rc_target c' = PMsg m).
Proof.
  apply (respond_split_reply_chain numbering_transport (fun s => s) (filler 8192)
           (Some 5) (Some false) ∅ sample_world); reflexivity.
Defined.

Lemma respond_split_delete_after_witness :
  let kwargs : gmap string PyVal := {[ "delete_after"%string := PInt 5 ]} in
  exists r w' last_page,
    respond_split numbering_transport (fun s => s) (filler 8192) (Some 5)
      (Some false) kwargs sample_world = (Ok r, w')
    /\ r = PMsg last_page
    /\ tasks w' = repeat (DeleteTask (PInt 5)) 3
    /\ deleted (run_pending w') = deleted sample_world ++ repeat last_page 3.
Proof.
  intros kwargs.
  assert (E : exists r w',
             respond_split numbering_transport (fun s => s) (filler 8192) (Some 5)
               (Some false) kwargs sample_world = (Ok r, w'))
    by (eexists; eexists; vm_compute; reflexivity).
  destruct E as (r & w' & E).
  destruct (respond_split_delete_after numbering_transport (fun s => s)
              (filler 8192) (Some 5) (Some false) kwargs sample_world r w' E)
    as (last_page & H); [reflexivity | reflexivity | vm_compute; lia |].
  exists r, w', last_page. split; [exact E | exact H].
Defined.

Lemma respond_split_result_witness :
  exists r w' m,
    respond_split numbering_transport (fun s => s) (filler 8192) (Some 5)
      (Some false) ∅ sample_world = (Ok r, w')
    /\ ctx_response (self w') = r /\ r = PMsg m.
Proof.
  assert (E : exists r w',
             respond_split numbering_transport (fun s => s) (filler 8192) (Some 5)
               (Some false) ∅ sample_world = (Ok r, w'))
    by (eexists; eexists; vm_compute; reflexivity).
  destruct E as (r & w' & E).
  destruct (respond_split_result numbering_transport (fun s => s)
              (filler 8192) (Some 5) (Some false) ∅ sample_world r w' E)
    as (_ & H).
  destruct H as (Hr & m & Hm); [vm_compute; discriminate | simpl; lia |].
  exists r, w', m. split; [exact E|]. split; assumption.
Defined.
